(** * claude_code_run.py: the PTY wrapper and its escape-sequence filter

    A shallow embedding of [.scripts/claude_code_run.py]:
    - [AnsiStripper]: the class [_AnsiStripper], a byte-stream transducer
      whose attributes survive between [feed] calls;
    - [Relay]: [run_with_pty] and [main], with the operating system
      replaced by a script of answers and a log of the calls issued;
    - [Sequences], [Traces]: the escape sequences and the logs that the
      properties speak of;
    - [Winsz]: [_get_winsz] and [_set_winsz], the packing of the window
      size;
    - [StripperFacts], [RelayFacts], [StripperExtra], [RelayExtra],
      [WinszFacts]: what holds of them.

    Not modelled: signals arriving during the session (the [SIGWINCH]
    handler, [KeyboardInterrupt]), and floating point: times are
    readings of the monotonic clock in ticks. *)

From Stdlib Require Import ZArith NArith Strings.Byte Ascii String Bool Lia.
From stdpp Require Import base option list strings gmap.

(** Python's [bytes]: a sequence of integers in [0, 255]. *)
Abbreviation bytes := (list byte).

#[global] Instance byte_eq_dec : EqDecision byte := Byte.byte_eq_dec.

(** [ord(c)] for a one-character string. *)
Definition ord (c : ascii) : N := N_of_ascii c.

(** [bytes] literal from a string, for examples. *)
Definition b_ (s : string) : bytes := list_byte_of_string s.

(* ================================================================= *)
(** ** The class [_AnsiStripper] *)

Module AnsiStripper.

Local Open Scope N_scope.

(** The values the attribute [_state] takes: "text", "esc", "csi",
    "osc", "dcs". *)
Inductive mode : Set := text | esc | csi | osc | dcs.

#[global] Instance mode_eq_dec : EqDecision mode.
Proof. solve_decision. Defined.

(** The instance attributes. *)
Record t : Set := mk {
  _state : mode;
  _osc_esc : bool;
  _dcs_esc : bool
}.

#[global] Instance t_eq_dec : EqDecision t.
Proof. solve_decision. Defined.

(** [__init__] *)
Definition init : t :=
  {| _state := text; _osc_esc := false; _dcs_esc := false |}.

Definition set_state (m : mode) (self : t) : t :=
  {| _state := m; _osc_esc := _osc_esc self; _dcs_esc := _dcs_esc self |}.
Definition set_osc_esc (f : bool) (self : t) : t :=
  {| _state := _state self; _osc_esc := f; _dcs_esc := _dcs_esc self |}.
Definition set_dcs_esc (f : bool) (self : t) : t :=
  {| _state := _state self; _osc_esc := _osc_esc self; _dcs_esc := f |}.

(** The local variables of [feed] that change in the loop. *)
Record frame : Set := Frame {
  f_self : t;
  f_out : bytes;    (* [out], a bytearray *)
  f_i : nat         (* [i] *)
}.

(** One pass through the body of [while i < n], entered with
    [b = data[i]].  [None] is the [break] of the "esc" branch; every
    other path ends in [i += 1; continue]. *)
Definition feed_body (n : nat) (b : byte) (fr : frame) : option frame :=
  let self := f_self fr in
  let out := f_out fr in
  let i := f_i fr in
  let next self' out' := Some (Frame self' out' (S i)) in
  match _state self with
  | text =>
      if to_N b =? 0x1B
      then next (set_state esc self) out
      else next self (out ++ [b])
  | esc =>
      if (n <=? i)%nat then None
      else
        let b2 := b in  (* [b2 = data[i]], the byte just read *)
        if to_N b2 =? ord "["
        then next (set_state csi self) out
        else if to_N b2 =? ord "]"
        then next (set_osc_esc false (set_state osc self)) out
        else if to_N b2 =? ord "P"
        then next (set_dcs_esc false (set_state dcs self)) out
        else next (set_state text self) out
  | csi =>
      if (0x40 <=? to_N b) && (to_N b <=? 0x7E)
      then next (set_state text self) out
      else next self out
  | osc =>
      if _osc_esc self
      then
        let self1 := if to_N b =? ord "\" then set_state text self else self in
        next (set_osc_esc false self1) out
      else if to_N b =? 0x07
      then next (set_state text self) out
      else if to_N b =? 0x1B
      then next (set_osc_esc true self) out
      else next self out
  | dcs =>
      if _dcs_esc self
      then
        let self1 := if to_N b =? ord "\" then set_state text self else self in
        next (set_dcs_esc false self1) out
      else if to_N b =? 0x1B
      then next (set_dcs_esc true self) out
      else next self out
  end.

(** [while i < n: b = data[i]; ...].  The loop runs at most [n - i]
    times; [fuel] bounds the number of passes. *)
Fixpoint feed_loop (fuel : nat) (data : bytes) (n : nat) (fr : frame) : frame :=
  match fuel with
  | O => fr
  | S fuel' =>
      if (f_i fr <? n)%nat then
        match data !! f_i fr with
        | Some b =>
            match feed_body n b fr with
            | Some fr' => feed_loop fuel' data n fr'
            | None => fr
            end
        | None => fr   (* unreachable: [i < n = len(data)] *)
        end
      else fr
  end.

(** [feed(self, data)]: the returned bytes and the instance afterwards. *)
Definition feed (data : bytes) (self : t) : bytes * t :=
  let n := length data in
  let fr := feed_loop n data n (Frame self [] 0) in
  (f_out fr, f_self fr).

(** Successive [feed] calls on one instance, one per chunk: the list
    of returned values and the instance afterwards. *)
Fixpoint feed_each (chunks : list bytes) (self : t) : list bytes * t :=
  match chunks with
  | [] => ([], self)
  | c :: rest =>
      let '(o, self1) := feed c self in
      let '(os, self2) := feed_each rest self1 in
      (o :: os, self2)
  end.

(** *** The loop as a byte-by-byte transition *)

(** What one byte does to the instance, and the byte it appends to
    [out], if any. *)
Definition step (self : t) (b : byte) : t * option byte :=
  match feed_body 1 b (Frame self [] 0) with
  | Some fr => (f_self fr, head (f_out fr))
  | None => (self, None)
  end.

Fixpoint run (data : bytes) (self : t) : bytes * t :=
  match data with
  | [] => ([], self)
  | b :: rest =>
      let '(self1, e) := step self b in
      let '(o, self2) := run rest self1 in
      (from_option (λ x, [x]) [] e ++ o, self2)
  end.


Definition ESC : byte := x1b.

(** The bytes a step appends to [out]. *)
Definition emitted (self : t) (b : byte) : bytes :=
  from_option (λ x, [x]) [] (snd (step self b)).


End AnsiStripper.

(* ================================================================= *)
(** ** The relay: [run_with_pty] and [main] *)

Module Relay.

Local Open Scope Z_scope.

(** *** Exceptions and control *)

(** The exception classes the calls raise, all of them subclasses of
    [Exception]; [ProcessLookupError] is the [OSError] whose errno is
    [ESRCH]. *)
Inductive exn : Set :=
  | OSError (errno : Z)
  | ValueError
  | TermiosError            (* [termios.error] *)
  | TimeoutExpired.         (* [subprocess.TimeoutExpired] *)

Definition EIO : Z := 5.
Definition ESRCH : Z := 3.

Definition is_Exception (e : exn) : bool := true.
Definition is_OSError (e : exn) : bool :=
  match e with OSError _ => true | _ => false end.
Definition is_ProcessLookupError (e : exn) : bool :=
  match e with OSError n => n =? ESRCH | _ => false end.
Definition is_TimeoutExpired (e : exn) : bool :=
  match e with TimeoutExpired => true | _ => false end.

(** What a call into the operating system or the library answers. *)
Inductive result (A : Type) : Type :=
  | Ok (a : A)
  | Err (e : exn).
Arguments Ok {A} a.
Arguments Err {A} e.

(** The answer of a function of the [os] module, which raises nothing
    but [OSError]. *)
Inductive os_result (A : Type) : Type :=
  | Done (a : A)
  | Errno (n : Z).
Arguments Done {A} a.
Arguments Errno {A} n.

(** How a block of statements can end other than by falling through:
    [break], [return v], [raise e], [sys.exit(code)]; [XPending] is a
    loop that is still running when the script of answers is over. *)
Inductive exit : Set :=
  | XBreak
  | XReturn (v : Z)
  | XRaise (e : exn)
  | XExit (code : Z)
  | XPending.

Inductive ctl (A : Type) : Type :=
  | Normal (a : A)
  | Leave (x : exit).
Arguments Normal {A} a.
Arguments Leave {A} x.

Abbreviation Break := (Leave XBreak).
Abbreviation Return v := (Leave (XReturn v)).
Abbreviation Raise e := (Leave (XRaise e)).
Abbreviation Exit c := (Leave (XExit c)).
Abbreviation Pending := (Leave XPending).

(** *** The state: the process's variables and the caller's terminal *)

Abbreviation fd := Z.
Abbreviation attrs := (list Z).   (* what [termios.tcgetattr] returns *)
Inductive signum : Set := SIGTERM | SIGKILL.

(** The calls issued, oldest first; a read is logged with its answer. *)
Inductive event : Type :=
  | EOpenPty (master slave : fd)
  | ESetWinsz (f : fd)
  | EPopen (cmd : list string) (cwd : option string) (env : gmap string string)
  | EClose (f : fd)
  | ESetRaw (f : fd)
  | ESignalWinch
  | ESelect (rlist : list fd)
  | ERead (f : fd) (size : Z) (r : os_result bytes)
  | EStdout (data : bytes)            (* [write] and [flush] *)
  | EWrite (f : fd) (data : bytes)
  | EKillPg (pgid : Z) (sig : signum)
  | EWait (timeout : option Z)
  | ETcSetAttr (f : fd) (a : attrs)
  | EStderr (msg : string).

Record state : Type := State {
  log : list event;
  tty : attrs;                          (* attributes of the caller's terminal *)
  returncode : option Z;                (* [p.returncode] *)
  stripper : option AnsiStripper.t;     (* [stripper] *)
  stdin_fd : option fd;                 (* [stdin_fd] *)
  raw_mode : bool;                      (* [raw_mode] *)
  old_tty_attrs : option attrs          (* [old_tty_attrs] *)
}.

Definition set_log (x : list event) (s : state) : state :=
  State x (tty s) (returncode s) (stripper s) (stdin_fd s) (raw_mode s) (old_tty_attrs s).
Definition set_tty (x : attrs) (s : state) : state :=
  State (log s) x (returncode s) (stripper s) (stdin_fd s) (raw_mode s) (old_tty_attrs s).
Definition set_returncode (x : option Z) (s : state) : state :=
  State (log s) (tty s) x (stripper s) (stdin_fd s) (raw_mode s) (old_tty_attrs s).
Definition set_stripper (x : option AnsiStripper.t) (s : state) : state :=
  State (log s) (tty s) (returncode s) x (stdin_fd s) (raw_mode s) (old_tty_attrs s).
Definition set_stdin_fd (x : option fd) (s : state) : state :=
  State (log s) (tty s) (returncode s) (stripper s) x (raw_mode s) (old_tty_attrs s).
Definition set_raw_mode (x : bool) (s : state) : state :=
  State (log s) (tty s) (returncode s) (stripper s) (stdin_fd s) x (old_tty_attrs s).
Definition set_old_tty_attrs (x : option attrs) (s : state) : state :=
  State (log s) (tty s) (returncode s) (stripper s) (stdin_fd s) (raw_mode s) x.

(** The state in which [main] starts, the terminal having attributes [a]. *)
Definition initial (a : attrs) : state :=
  State [] a None None None false None.

(** *** Statements *)

Definition M (A : Type) : Type := state -> ctl A * state.

Definition ret {A} (a : A) : M A := fun s => (Normal a, s).

Definition bind {A B} (m : M A) (k : A -> M B) : M B := fun s =>
  match m s with
  | (Normal a, s') => k a s'
  | (Leave x, s') => (Leave x, s')
  end.

Declare Scope py_scope.
Delimit Scope py_scope with py.
Notation "x <- m ;; k" := (bind m (fun x => k))
  (at level 100, m at next level, right associativity) : py_scope.
Notation "m ;;; k" := (bind m (fun _ => k))
  (at level 100, right associativity) : py_scope.
Local Open Scope py_scope.

Definition leave {A} (x : exit) : M A := fun s => (Leave x, s).
Definition break_ {A} : M A := leave XBreak.
Definition return_ {A} (v : Z) : M A := leave (XReturn v).
Definition raise {A} (e : exn) : M A := leave (XRaise e).
Definition sys_exit {A} (code : Z) : M A := leave (XExit code).
Definition pending {A} : M A := leave XPending.
Definition get : M state := fun s => (Normal s, s).
Definition modify (f : state -> state) : M unit := fun s => (Normal tt, f s).
Definition emit (e : event) : M unit := modify (fun s => set_log (log s ++ [e]) s).

(** The value of a call: its answer, or the exception it raises. *)
Definition answer {A} (r : result A) : M A :=
  match r with Ok a => ret a | Err e => raise e end.
Definition os_answer {A} (r : os_result A) : M A :=
  match r with Done a => ret a | Errno n => raise (OSError n) end.
Definition succeed (r : option exn) : M unit :=
  match r with None => ret tt | Some e => raise e end.

(** [try: body  except C: handler], [C] given by its membership test. *)
Definition try_except {A} (body : M A) (C : exn -> bool) (handler : exn -> M A) : M A :=
  fun s =>
    match body s with
    | (Raise e, s') => if C e then handler e s' else (Raise e, s')
    | r => r
    end.

(** [try: body  finally: fin].  A body that is still running has not
    reached its [finally]. *)
Definition try_finally {A} (body : M A) (fin : M unit) : M A := fun s =>
  match body s with
  | (Pending, s') => (Pending, s')
  | (c, s') =>
      match fin s' with
      | (Normal _, s'') => (c, s'')
      | (Leave x, s'') => (Leave x, s'')
      end
  end.

(** *** The calls *)

(** Answers to the calls made before the loop and in the [finally]
    block, and the facts about the child that do not change.  Times
    are readings of the monotonic clock in ticks. *)
Record setup : Type := Setup {
  su_openpty : result (fd * fd);      (* [pty.openpty()] *)
  su_isatty : bool;                   (* [sys.stdin.isatty()] *)
  su_fileno : fd;                     (* [sys.stdin.fileno()] *)
  su_winsz : option exn;              (* copying the window size raises *)
  su_popen : option exn;              (* [subprocess.Popen] raises *)
  su_tcgetattr : option exn;          (* [termios.tcgetattr] raises *)
  su_setraw : result attrs;           (* the attributes [tty.setraw] leaves *)
  su_signal : option exn;             (* [signal.signal] raises *)
  su_start : Z;                       (* [time.monotonic()] before the loop *)
  su_status : Z;                      (* the status the child exits with *)
  su_close : option exn;              (* [os.close(master_fd)] raises *)
  su_tcsetattr : option exn           (* [termios.tcsetattr] raises *)
}.

(** Answers to [_kill_process_group].  The group is that of the
    relay's own child, so [os.killpg] either delivers the signal or
    finds the group gone. *)
Record kill_answer : Type := KillAnswer {
  ka_getpgid : os_result Z;
  ka_delivered : bool
}.

(** Answers to the calls of one pass through [while True].  After the
    reads of [it_drain] the controller endpoint is at end of file. *)
Record iteration : Type := Iteration {
  it_now : Z;                               (* [time.monotonic()] *)
  it_term : kill_answer;
  it_grace : option Z;                      (* [p.wait(timeout=2)]; [None]: [TimeoutExpired] *)
  it_kill : kill_answer;
  it_select : result (list fd);             (* the ready descriptors *)
  it_master_read : os_result bytes;         (* [os.read(master_fd, 4096)] *)
  it_stdout : option exn;                   (* writing to stdout raises *)
  it_exited1 : bool;                        (* the child has exited, first [poll] *)
  it_stdin_read : os_result bytes;          (* [os.read(stdin_fd, 1024)] *)
  it_master_write : os_result unit;         (* [os.write(master_fd, in_data)] *)
  it_exited2 : bool;                        (* the child has exited, second [poll] *)
  it_drain : list (os_result bytes * option exn)
}.

(** The pair and the child are logged once they exist, the other
    calls that act on the outside when they are made; queries
    ([tcgetattr], [poll], the clock) are not logged. *)
Definition openpty (r : result (fd * fd)) : M (fd * fd) :=
  p <- answer r ;; emit (EOpenPty (fst p) (snd p)) ;;; ret p.

Definition Popen (cmd : list string) (cwd : option string)
    (env : gmap string string) (r : option exn) : M unit :=
  succeed r ;;; emit (EPopen cmd cwd env) ;;; modify (set_returncode None).

Definition copy_winsz (f : fd) (r : option exn) : M unit :=
  emit (ESetWinsz f) ;;; succeed r.

Definition os_close (f : fd) (r : option exn) : M unit :=
  emit (EClose f) ;;; succeed r.

Definition tcgetattr (r : option exn) : M attrs :=
  succeed r ;;; s <- get ;; ret (tty s).

Definition setraw (f : fd) (r : result attrs) : M unit :=
  emit (ESetRaw f) ;;; a <- answer r ;; modify (set_tty a).

Definition tcsetattr (f : fd) (a : attrs) (r : option exn) : M unit :=
  emit (ETcSetAttr f a) ;;; succeed r ;;; modify (set_tty a).

Definition signal_winch (r : option exn) : M unit :=
  emit ESignalWinch ;;; succeed r.

Definition select (rlist : list fd) (r : result (list fd)) : M (list fd) :=
  emit (ESelect rlist) ;;; answer r.

Definition os_read (f : fd) (size : Z) (r : os_result bytes) : M bytes :=
  emit (ERead f size r) ;;; os_answer r.

Definition os_write (f : fd) (data : bytes) (r : os_result unit) : M unit :=
  emit (EWrite f data) ;;; os_answer r.

Definition stdout_write (data : bytes) (r : option exn) : M unit :=
  emit (EStdout data) ;;; succeed r.

(** [p.poll()]: the cached [returncode], else what the system says now. *)
Definition poll (exited : bool) (status : Z) : M (option Z) :=
  s <- get ;;
  match returncode s with
  | Some rc => ret (Some rc)
  | None =>
      if exited
      then modify (set_returncode (Some status)) ;;; ret (Some status)
      else ret None
  end.

(** [p.wait(timeout)]; [r = None] is the timeout expiring. *)
Definition wait (timeout : option Z) (r : option Z) : M Z :=
  emit (EWait timeout) ;;;
  s <- get ;;
  match returncode s with
  | Some rc => ret rc
  | None =>
      match r with
      | Some rc => modify (set_returncode (Some rc)) ;;; ret rc
      | None => raise TimeoutExpired
      end
  end.

(** [if stripper is not None: data = stripper.feed(data)] *)
Definition strip (data : bytes) : M bytes := fun s =>
  match stripper s with
  | Some st =>
      let '(o, st') := AnsiStripper.feed data st in
      (Normal o, set_stripper (Some st') s)
  | None => (Normal data, s)
  end.

(** Truth value of a sequence. *)
Definition truthy {A} (l : list A) : bool :=
  match l with [] => false | _ => true end.

Definition is_not_None {A} (o : option A) : bool :=
  match o with Some _ => true | None => false end.

(** *** [_kill_process_group] *)

Definition _kill_process_group (a : kill_answer) (sig : signum) : M unit :=
  pgid <- try_except (p <- os_answer (ka_getpgid a) ;; ret (Some p))
            is_Exception (fun _ => ret None) ;;
  match pgid with
  | None => ret tt                                        (* [return] *)
  | Some pgid =>
      try_except
        (emit (EKillPg pgid sig) ;;;
         os_answer (if ka_delivered a then Done tt else Errno ESRCH))
        is_ProcessLookupError (fun _ => ret tt)
  end.

(** *** [run_with_pty] *)

Section run_with_pty.
Variable cmd : list string.
Variable cwd : option string.
Variable timeout_s : option Z.
Variable env : gmap string string.
Variable strip_ansi : bool.
Variable su : setup.

(** [timeout_s is not None and (time.monotonic() - start) > timeout_s] *)
Definition timed_out (it : iteration) : bool :=
  match timeout_s with
  | Some t => t <? it_now it - su_start su
  | None => false
  end.

(** The inner [while True] that drains the controller endpoint. *)
Fixpoint drain_loop (master_fd : fd)
    (reads : list (os_result bytes * option exn)) : M unit :=
  match reads with
  | [] =>
      _ <- os_read master_fd 4096 (Done []) ;; break_
  | (r, w) :: rest =>
      data <- os_read master_fd 4096 r ;;
      if negb (truthy data) then break_
      else
        data <- strip data ;;
        (if truthy data then stdout_write data w else ret tt) ;;;
        drain_loop master_fd rest
  end.

(** A [while] loop ends normally at the [break] of its body. *)
Definition end_while (m : M unit) : M unit := fun s =>
  match m s with
  | (Break, s') => (Normal tt, s')
  | r => r
  end.

(** The timeout check at the head of the loop body. *)
Definition check_timeout (it : iteration) : M unit :=
  if timed_out it then
    _kill_process_group (it_term it) SIGTERM ;;;
    try_except (_ <- wait (Some 2) (it_grace it) ;; ret tt)
      is_TimeoutExpired
      (fun _ => _kill_process_group (it_kill it) SIGKILL) ;;;
    return_ 124
  else ret tt.

(** [try: data = os.read(master_fd, 4096)  except OSError as e: ...] *)
Definition read_master (master_fd : fd) (r : os_result bytes) : M bytes :=
  try_except (os_read master_fd 4096 r)
    is_OSError
    (fun e => match e with
              | OSError errno => if errno =? EIO then ret [] else raise e
              | _ => raise e
              end).

(** [if master_fd in ready: ...] *)
Definition relay_output (master_fd : fd) (ready : list fd) (it : iteration) : M unit :=
  if bool_decide (master_fd ∈ ready) then
    data <- read_master master_fd (it_master_read it) ;;
    if truthy data then
      data <- strip data ;;
      if truthy data then stdout_write data (it_stdout it) else ret tt
    else
      rc <- poll (it_exited1 it) (su_status su) ;;
      if is_not_None rc then break_ else ret tt
  else ret tt.

(** [if stdin_fd is not None and stdin_fd in ready: ...] *)
Definition relay_input (master_fd : fd) (ready : list fd) (it : iteration) : M unit :=
  s <- get ;;
  match stdin_fd s with
  | Some f =>
      if bool_decide (f ∈ ready) then
        in_data <- try_except (os_read f 1024 (it_stdin_read it))
                     is_OSError (fun _ => ret []) ;;
        if truthy in_data then
          try_except (os_write master_fd in_data (it_master_write it))
            is_OSError (fun _ => ret tt)
        else ret tt
      else ret tt
  | None => ret tt
  end.

(** [if p.poll() is not None: ...] at the end of the loop body. *)
Definition drain_on_exit (master_fd : fd) (it : iteration) : M unit :=
  rc <- poll (it_exited2 it) (su_status su) ;;
  if is_not_None rc then
    try_except (end_while (drain_loop master_fd (it_drain it)))
      is_OSError (fun _ => ret tt) ;;;
    break_
  else ret tt.

(** One pass through the body of the outer [while True]. *)
Definition loop_body (master_fd : fd) (it : iteration) : M unit :=
  check_timeout it ;;;
  s <- get ;;
  let rlist := [master_fd] ++ from_option (fun f => [f]) [] (stdin_fd s) in
  ready <- select rlist (it_select it) ;;
  relay_output master_fd ready it ;;;
  relay_input master_fd ready it ;;;
  drain_on_exit master_fd it.

(** The outer [while True], one element of the script per pass. *)
Fixpoint event_loop (master_fd : fd) (its : list iteration) : M unit :=
  match its with
  | [] => pending
  | it :: rest => fun s =>
      match loop_body master_fd it s with
      | (Normal _, s') => event_loop master_fd rest s'
      | r => r
      end
  end.

(** Everything before the [try]; the value is [master_fd]. *)
Definition before_try : M fd :=
  p <- openpty (su_openpty su) ;;
  let master_fd := fst p in
  let slave_fd := snd p in
  try_except
    (if su_isatty su then copy_winsz slave_fd (su_winsz su) else ret tt)
    is_Exception (fun _ => ret tt) ;;;
  Popen cmd cwd env (su_popen su) ;;;
  os_close slave_fd None ;;;
  modify (set_stdin_fd None) ;;;
  modify (set_raw_mode false) ;;;
  modify (set_old_tty_attrs None) ;;;
  (if su_isatty su then
     modify (set_stdin_fd (Some (su_fileno su))) ;;;
     try_except
       (old <- tcgetattr (su_tcgetattr su) ;;
        modify (set_old_tty_attrs (Some old)) ;;;
        setraw (su_fileno su) (su_setraw su) ;;;
        modify (set_raw_mode true))
       is_Exception
       (fun _ => modify (set_stdin_fd None)) ;;;
     try_except (signal_winch (su_signal su)) is_Exception (fun _ => ret tt)
   else ret tt) ;;;
  modify (set_stripper (if strip_ansi then Some AnsiStripper.init else None)) ;;;
  ret master_fd.

(** The body of the [try]. *)
Definition session (master_fd : fd) (its : list iteration) : M Z :=
  end_while (event_loop master_fd its) ;;;
  rc <- wait None (Some (su_status su)) ;;
  return_ rc.

(** The [finally] block. *)
Definition cleanup (master_fd : fd) : M unit :=
  try_except (os_close master_fd (su_close su)) is_Exception (fun _ => ret tt) ;;;
  s <- get ;;
  match raw_mode s, stdin_fd s, old_tty_attrs s with
  | true, Some f, Some old =>
      try_except (tcsetattr f old (su_tcsetattr su))
        is_Exception (fun _ => ret tt)
  | _, _, _ => ret tt
  end.

Definition run_with_pty (its : list iteration) : M Z :=
  master_fd <- before_try ;;
  try_finally (session master_fd its) (cleanup master_fd).

End run_with_pty.

(** *** [main] *)

(** The namespace [parser.parse_args()] returns. *)
Record Namespace : Type := {
  args_cwd : option string;
  args_timeout : option Z;
  args_claude_bin : string;
  args_strip_ansi : bool;
  args_claude_args : list string
}.

(** [parser.error(message)]: the message goes to stderr and the
    process exits with status 2. *)
Definition parser_error {A} (message : string) : M A :=
  emit (EStderr message) ;;; sys_exit 2.

(** [d.setdefault(k, v)] *)
Definition setdefault (k v : string) (d : gmap string string) : gmap string string :=
  match d !! k with
  | Some _ => d
  | None => <[k:=v]> d
  end.

Definition main (args : Namespace) (environ : gmap string string)
    (su : setup) (its : list iteration) : M Z :=
  let claude_args := args_claude_args args in
  let claude_args :=
    match claude_args with
    | a0 :: rest => if bool_decide (a0 = "--"%string) then rest else claude_args
    | [] => claude_args
    end in
  (if negb (truthy claude_args)
   then parser_error "No claude args provided. Example: -- -p 'hello'"
   else ret tt) ;;;
  let env := environ in
  let env := setdefault "TERM" (default "xterm-256color"%string (env !! "TERM"%string)) env in
  let cmd := [args_claude_bin args] ++ claude_args in
  run_with_pty cmd (args_cwd args) (args_timeout args) env (args_strip_ansi args) su its.

(** *** What a log shows *)

(** The data of the successful reads from descriptor [f]. *)
Definition reads_from (f : fd) (l : list event) : list bytes :=
  omap (fun e => match e with
                 | ERead f' _ (Done d) => if bool_decide (f' = f) then Some d else None
                 | _ => None
                 end) l.

(** The data handed to [os.write] for descriptor [f]. *)
Definition writes_to (f : fd) (l : list event) : list bytes :=
  omap (fun e => match e with
                 | EWrite f' d => if bool_decide (f' = f) then Some d else None
                 | _ => None
                 end) l.

(** The bytes written to stdout. *)
Definition stdout_of (l : list event) : bytes :=
  concat (omap (fun e => match e with EStdout d => Some d | _ => None end) l).

(** A pseudo-terminal was allocated or a child spawned. *)
Definition acquires (e : event) : bool :=
  match e with
  | EOpenPty _ _ | EPopen _ _ _ => true
  | _ => false
  end.

(** *** Judgements about statements *)

(** Every way [m] can leave, from any state, is in [Q]. *)
Definition exits_in {A} (Q : exit -> Prop) (m : M A) : Prop :=
  forall s x, fst (m s) = Leave x -> Q x.

(** [m] relates the state it starts in to the state it ends in. *)
Definition keeps {A} (R : relation state) (m : M A) : Prop :=
  forall s, R s (snd (m s)).

(** In the log [l], what was written to [master] is what was read
    from [f], the empty reads left out. *)
Definition forwards (master f : fd) (l : list event) : Prop :=
  writes_to master l = filter (fun d => d <> []) (reads_from f l).

(** [stdin_fd] is [None] or the descriptor [f]. *)
Definition stdin_is (f : fd) (s : state) : Prop :=
  forall f', stdin_fd s = Some f' -> f' = f.

(** What the loop leaves alone: the terminal and the variables set
    before the [try]; and, [master] and [f] being two descriptors, what
    it appends to the log forwards the caller's input. *)
Definition framed (master f : fd) (s s' : state) : Prop :=
  tty s' = tty s /\ stdin_fd s' = stdin_fd s /\ raw_mode s' = raw_mode s
  /\ old_tty_attrs s' = old_tty_attrs s
  /\ (master <> f -> stdin_is f s ->
      exists ext, log s' = log s ++ ext /\ forwards master f ext).

(** The log grows by events that are neither reads nor writes. *)
Definition quiet_event (e : event) : bool :=
  match e with
  | ERead _ _ _ | EWrite _ _ => false
  | _ => true
  end.
Definition grows_quietly (s s' : state) : Prop :=
  exists ext, log s' = log s ++ ext /\ forallb quiet_event ext = true.

(** [p.returncode] is unset or the status of the child. *)
Definition returncode_ok (status : Z) (s : state) : Prop :=
  returncode s = None \/ returncode s = Some status.

(** [p.returncode] is left as it is. *)
Definition same_returncode (s s' : state) : Prop := returncode s' = returncode s.

(** What [break] and falling through say about [p.returncode]. *)
Definition rc_post (su : setup) (c : ctl unit) (s' : state) : Prop :=
  match c with
  | Normal _ => returncode_ok (su_status su) s'
  | Break => returncode s' = Some (su_status su)
  | _ => True
  end.

(** The exceptions the loop body lets through in the pass [it]: one
    raised by [select], by the read of the controller endpoint unless
    its errno is [EIO], by the write to stdout, or, in the final drain,
    by a write to stdout unless it is an [OSError]. *)
Definition raise_source (it : iteration) (e : exn) : Prop :=
  it_select it = Err e
  \/ (exists n, it_master_read it = Errno n /\ n <> EIO /\ e = OSError n)
  \/ it_stdout it = Some e
  \/ (is_OSError e = false /\ exists r, (r, Some e) ∈ it_drain it).

(** The ways a pass of the loop can end other than by going on. *)
Definition pass_exit (timeout_s : option Z) (su : setup)
    (it : iteration) (x : exit) : Prop :=
  match x with
  | XBreak => True
  | XReturn v => v = 124 /\ timed_out timeout_s su it = true
  | XRaise e => raise_source it e
  | XExit _ | XPending => False
  end.

(** The snapshot is taken and raw mode entered. *)
Definition enters_raw_mode (su : setup) : Prop :=
  (exists p, su_openpty su = Ok p) /\ su_popen su = None
  /\ su_isatty su = true /\ su_tcgetattr su = None
  /\ exists raw, su_setraw su = Ok raw.

(** How [run_with_pty] ends, given how its loop ended. *)
Definition final (su : setup) (m : fd) (x : exit) (s2 : state) : ctl Z * state :=
  match x with
  | XPending => (Pending, s2)
  | XBreak =>
      (Return (su_status su),
       snd (cleanup su m (set_log (log s2 ++ [EWait None]) s2)))
  | _ => (Leave x, snd (cleanup su m s2))
  end.

(** *** Sample scripts *)

(** A caller on a terminal with descriptor 0; the pair is (3, 4);
    the loop starts at tick 100. *)
Definition sample_setup (status : Z) : setup :=
  Setup (Ok (3, 4)) true 0 None None None (Ok [1]) None 100 status None None.

Definition delivered : kill_answer := KillAnswer (Done 77) true.

(** A pass at tick [now] in which [ready] is ready, the controller
    endpoint answers [out], the caller's input answers [inp], and the
    child has exited or not. *)
Definition pass (now : Z) (ready : list fd) (out : os_result bytes)
    (inp : os_result bytes) (exited : bool) : iteration :=
  Iteration now delivered (Some (-15)) delivered (Ok ready) out None exited
            inp (Done tt) exited [].

Definition sample_cmd : list string := ["claude"; "-p"; "hello"]%string.

(** The child writes "hi", the caller types the up-arrow key. *)
Definition chat : iteration :=
  pass 101 [3; 0] (Done (b_ "hi")) (Done [x1b; x5b; x41]) false.

(** The child has exited: the read fails with [EIO]. *)
Definition hangup (now : Z) : iteration :=
  pass now [3] (Errno EIO) (Done []) true.

(** The read of the controller endpoint fails with errno [n]. *)
Definition broken (n : Z) : iteration :=
  pass 102 [3] (Errno n) (Done []) false.

Definition sample_args (rest : list string) : Namespace :=
  {| args_cwd := None; args_timeout := None; args_claude_bin := "claude";
     args_strip_ansi := true; args_claude_args := rest |}.

End Relay.

(* ================================================================= *)
(** ** Escape sequences, as the filter sees them *)

Module Sequences.
Import AnsiStripper.
Local Open Scope N_scope.

Definition BEL : byte := x07.

(** The test of the "csi" branch: a final byte, in 0x40-0x7E. *)
Definition is_final (b : byte) : bool :=
  (0x40 <=? to_N b) && (to_N b <=? 0x7E).

(** ESC [ parameters final *)
Definition csi_sequence (params : bytes) (final : byte) : bytes :=
  [ESC; x5b] ++ params ++ [final].

(** The string terminator ST, ESC \ *)
Definition ST : bytes := [ESC; x5c].

(** ESC ] body terminator *)
Definition osc_sequence (body terminator : bytes) : bytes :=
  [ESC; x5d] ++ body ++ terminator.

(** ESC P body ESC \ *)
Definition dcs_sequence (body : bytes) : bytes :=
  [ESC; x50] ++ body ++ ST.

(** The flags are set only inside the string they belong to. *)
Definition flags_ok (self : t) : Prop :=
  (_osc_esc self = true -> _state self = osc)
  /\ (_dcs_esc self = true -> _state self = dcs).

End Sequences.

(* ================================================================= *)
(** ** Traces of the relay *)

Module Traces.
Import Relay.
Local Open Scope Z_scope.

(** The terminal and [stdin_fd] are left alone, and the log grows by
    events that pass [P], which may depend on [stdin_fd]. *)
Definition grows_by (P : option fd -> event -> bool) (s s' : state) : Prop :=
  stdin_fd s' = stdin_fd s /\ tty s' = tty s
  /\ exists ext, log s' = log s ++ ext /\ forallb (P (stdin_fd s)) ext = true.

(** What the loop does: it selects, reads the controller endpoint,
    writes to stdout, signals and waits; it reads [stdin_fd] and
    writes to the controller endpoint only when [stdin_fd] is set. *)
Definition loop_event (master : fd) (sfd : option fd) (e : event) : bool :=
  match e with
  | ESelect _ | EStdout _ | EKillPg _ _ | EWait _ => true
  | ERead f _ _ => bool_decide (f = master) || bool_decide (sfd = Some f)
  | EWrite f _ => bool_decide (f = master) && is_not_None sfd
  | _ => false
  end.

(** A signal sent to the child's group, or the wait for its effect. *)
Definition signal_event (e : event) : bool :=
  match e with
  | EKillPg _ _ | EWait (Some _) => true
  | _ => false
  end.

Definition is_close (e : event) : bool :=
  match e with EClose _ => true | _ => false end.

Definition is_spawn (e : event) : bool :=
  match e with EPopen _ _ _ => true | _ => false end.



(** What the calls before the [try] log when the pair is allocated
    and the child spawned. *)
Definition setup_trace (cmd : list string) (cwd : option string)
    (env : gmap string string) (su : setup) (m sl : fd) : list event :=
  [EOpenPty m sl]
  ++ (if su_isatty su then [ESetWinsz sl] else [])
  ++ [EPopen cmd cwd env; EClose sl]
  ++ (if su_isatty su
      then match su_tcgetattr su with
           | None => [ESetRaw (su_fileno su)]
           | Some _ => []
           end ++ [ESignalWinch]
      else []).

(** What the [finally] block logs in state [s]. *)
Definition cleanup_trace (m : fd) (s : state) : list event :=
  EClose m ::
  match raw_mode s, stdin_fd s, old_tty_attrs s with
  | true, Some f, Some old => [ETcSetAttr f old]
  | _, _, _ => []
  end.

(** The child's output in a log: the data read from the controller
    endpoint, in order. *)
Definition master_output (m : fd) (l : list event) : bytes :=
  concat (reads_from m l).

(** [data] through the stripper, if there is one. *)
Definition filtered (st : option AnsiStripper.t) (data : bytes)
    : bytes * option AnsiStripper.t :=
  match st with
  | Some st => (fst (AnsiStripper.feed data st), Some (snd (AnsiStripper.feed data st)))
  | None => (data, None)
  end.

(** What is appended to the log writes to stdout the child's output
    of that stretch, through the stripper in its state at the start. *)
Definition piped (m f : fd) (s s' : state) : Prop :=
  stdin_fd s' = stdin_fd s
  /\ (m <> f -> stdin_is f s ->
      exists ext, log s' = log s ++ ext
        /\ (stdout_of ext, stripper s') = filtered (stripper s) (master_output m ext)).

(** A pass in which nothing happens: no timeout, nothing ready, the
    child still running. *)
Definition idle (timeout_s : option Z) (su : setup) (it : iteration) : Prop :=
  timed_out timeout_s su it = false /\ it_select it = Ok [] /\ it_exited2 it = false.

(** [claude_args] once a leading "--" is dropped. *)
Definition target_args (claude_args : list string) : list string :=
  match claude_args with
  | a0 :: rest => if bool_decide (a0 = "--"%string) then rest else claude_args
  | [] => claude_args
  end.

(** The attributes [tty.setraw] leaves when raw mode is entered. *)
Definition raw_attrs (su : setup) : option attrs :=
  if su_isatty su then
    match su_tcgetattr su, su_setraw su with
    | None, Ok raw => Some raw
    | _, _ => None
    end
  else None.

(** What is logged after the loop has left by [x] in state [s]:
    nothing while it is running, else the wait for the status after a
    [break], and the [finally] block. *)
Definition closing_trace (m : fd) (x : exit) (s : state) : list event :=
  match x with
  | XPending => []
  | XBreak => EWait None :: cleanup_trace m s
  | _ => cleanup_trace m s
  end.

(** The descriptors closed, in order. *)
Definition closes (l : list event) : list fd :=
  omap (fun e => match e with EClose f => Some f | _ => None end) l.

(** The children spawned, in order. *)
Definition spawns (l : list event)
    : list (list string * option string * gmap string string) :=
  omap (fun e => match e with
                 | EPopen cmd cwd env => Some (cmd, cwd, env)
                 | _ => None
                 end) l.

(** An event that leaves the caller's side alone: no read but from
    the controller endpoint [m], no write to a descriptor, no change
    of the terminal's attributes. *)
Definition output_only (m : fd) (e : event) : bool :=
  match e with
  | ERead f _ _ => bool_decide (f = m)
  | EWrite _ _ | ETcSetAttr _ _ => false
  | _ => true
  end.

(** A pass in which the child is running and nothing fails: no
    timeout, no exception that the loop lets through. *)
Definition running (timeout_s : option Z) (su : setup) (it : iteration) : Prop :=
  timed_out timeout_s su it = false
  /\ it_exited1 it = false /\ it_exited2 it = false
  /\ forall e, ~ raise_source it e.

(** The state [s1] in which the [try] is entered, from [s], the pair
    being [(m, sl)] and the child spawned. *)
Definition prepared (cmd : list string) (cwd : option string)
    (env : gmap string string) (strip_ansi : bool) (su : setup) (m sl : fd)
    (s s1 : state) : Prop :=
  log s1 = log s ++ setup_trace cmd cwd env su m sl
  /\ stripper s1 = (if strip_ansi then Some AnsiStripper.init else None)
  /\ returncode s1 = None
  /\ match raw_attrs su with
     | Some raw =>
         tty s1 = raw /\ stdin_fd s1 = Some (su_fileno su)
         /\ raw_mode s1 = true /\ old_tty_attrs s1 = Some (tty s)
     | None => tty s1 = tty s /\ stdin_fd s1 = None /\ raw_mode s1 = false
     end.

(** What is logged when the spawn fails. *)
Definition failed_spawn_trace (su : setup) (m sl : fd) : list event :=
  EOpenPty m sl :: (if su_isatty su then [ESetWinsz sl] else []).

End Traces.

(* ================================================================= *)
(** ** The window size: [_get_winsz] and [_set_winsz] *)

Module Winsz.
Local Open Scope Z_scope.

Definition byte_val (b : byte) : Z := Z.of_N (Byte.to_N b).
Definition byte_of (n : Z) : option byte := Byte.of_N (Z.to_N n).

(** [struct winsize]: rows, columns, and the size in pixels. *)
Definition winsz : Type := Z * Z * Z * Z.

Section byte_order.
(** The format "HHHH" is in the byte order of the machine. *)
Variable big_endian : bool.

(** One "H" of [struct.unpack]. *)
Definition unpack_H (b0 b1 : byte) : Z :=
  if big_endian then 256 * byte_val b0 + byte_val b1
  else byte_val b0 + 256 * byte_val b1.

(** One "H" of [struct.pack]; [None] is [struct.error]: the format
    takes an integer in [0, 65535]. *)
Definition pack_H (n : Z) : option bytes :=
  if (0 <=? n) && (n <=? 65535) then
    lo ← byte_of (n mod 256);
    hi ← byte_of (n / 256);
    Some (if big_endian then [hi; lo] else [lo; hi])
  else None.

(** [struct.unpack("HHHH", data)]; [None] is [struct.error]: the
    buffer is not of 8 bytes. *)
Definition struct_unpack (data : bytes) : option winsz :=
  match data with
  | [r0; r1; c0; c1; x0; x1; y0; y1] =>
      Some (unpack_H r0 r1, unpack_H c0 c1, unpack_H x0 x1, unpack_H y0 y1)
  | _ => None
  end.

(** [struct.pack("HHHH", rows, cols, xpix, ypix)] *)
Definition struct_pack (w : winsz) : option bytes :=
  let '(rows, cols, xpix, ypix) := w in
  r ← pack_H rows;
  c ← pack_H cols;
  x ← pack_H xpix;
  y ← pack_H ypix;
  Some (r ++ c ++ x ++ y).

(** [_get_winsz(fd)], [ioctl] being what the [TIOCGWINSZ] request
    returns. *)
Definition _get_winsz (ioctl : bytes) : option winsz := struct_unpack ioctl.

(** [_set_winsz(fd, winsz)]: the buffer handed to the [TIOCSWINSZ]
    request. *)
Definition _set_winsz (w : winsz) : option bytes := struct_pack w.

End byte_order.

(** Every field is an unsigned 16-bit integer. *)
Definition in_range (w : winsz) : Prop :=
  let '(rows, cols, xpix, ypix) := w in
  (0 <= rows <= 65535) /\ (0 <= cols <= 65535)
  /\ (0 <= xpix <= 65535) /\ (0 <= ypix <= 65535).

End Winsz.

(* ================================================================= *)
(** ** Properties of the filter *)

Module StripperFacts.
Import AnsiStripper.
Local Open Scope N_scope.

Lemma feed_body_step n b self out i :
  (i < n)%nat ->
  feed_body n b (Frame self out i)
  = Some (Frame (fst (step self b)) (out ++ emitted self b) (S i)).
Proof.
  intros Hi. apply Nat.leb_gt in Hi.
  unfold emitted, step, feed_body. cbn [f_self f_out f_i].
  rewrite Hi. change (1 <=? 0)%nat with false.
  destruct (_state self); repeat case_match; cbn; rewrite ?app_nil_r; reflexivity.
Qed.

Lemma run_cons b rest self :
  run (b :: rest) self
  = (emitted self b ++ fst (run rest (fst (step self b))),
     snd (run rest (fst (step self b)))).
Proof.
  unfold emitted. cbn [run]. destruct (step self b) as [s1 e]. cbn [fst snd].
  destruct (run rest s1); reflexivity.
Qed.

(** The index loop computes the byte-by-byte run of what is left of
    [data], and never stops before [i = n]. *)
Lemma feed_loop_run fuel data self out i :
  (length data - i <= fuel)%nat ->
  feed_loop fuel data (length data) (Frame self out i)
  = Frame (snd (run (drop i data) self))
          (out ++ fst (run (drop i data) self))
          (Nat.max i (length data)).
Proof.
  revert self out i. induction fuel as [|fuel IH]; intros self out i Hf.
  - cbn [feed_loop]. rewrite drop_ge by lia. cbn. rewrite app_nil_r.
    f_equal. lia.
  - cbn [feed_loop f_i]. destruct (Nat.ltb_spec i (length data)) as [Hi|Hi].
    + destruct (lookup_lt_is_Some_2 data i Hi) as [b Hb]. rewrite Hb.
      rewrite feed_body_step by exact Hi.
      rewrite IH by lia.
      rewrite (drop_S _ _ _ Hb), run_cons. cbn [fst snd].
      rewrite <- app_assoc. f_equal. lia.
    + rewrite drop_ge by lia. cbn. rewrite app_nil_r. f_equal. lia.
Qed.

Lemma feed_run data self : feed data self = run data self.
Proof.
  unfold feed. rewrite feed_loop_run by lia. cbn. rewrite drop_0.
  destruct (run data self); reflexivity.
Qed.

Lemma run_app d1 d2 self :
  run (d1 ++ d2) self
  = (fst (run d1 self) ++ fst (run d2 (snd (run d1 self))),
     snd (run d2 (snd (run d1 self)))).
Proof.
  revert self. induction d1 as [|b d1 IH]; intros self.
  - cbn. destruct (run d2 self); reflexivity.
  - rewrite <- app_comm_cons, !run_cons, IH. cbn [fst snd].
    rewrite app_assoc. reflexivity.
Qed.

(** Case analysis on every test of a loop body. *)
Ltac split_ifs :=
  repeat match goal with
         | |- context [if ?c then _ else _] => destruct c
         end;
  reflexivity.

Lemma to_N_inj (a b : byte) : to_N a = to_N b -> a = b.
Proof.
  intros H. pose proof (of_to_N a) as Ha. rewrite H, of_to_N in Ha.
  congruence.
Qed.

Lemma is_esc b : (to_N b =? 0x1B) = bool_decide (b = ESC).
Proof.
  case_bool_decide as Hb.
  - subst b. reflexivity.
  - apply N.eqb_neq. intros H. apply Hb, to_N_inj. exact H.
Qed.

(** Only a byte read in mode "text" is appended, and never ESC. *)
Lemma emitted_spec self b :
  emitted self b
  = if bool_decide (_state self = text ∧ b ≠ ESC) then [b] else [].
Proof.
  unfold emitted, step, feed_body. cbn [f_self f_out f_i].
  change (1 <=? 0)%nat with false.
  destruct (_state self) eqn:Hm; cbn beta iota.
  - rewrite is_esc. case_bool_decide as Hb.
    + rewrite bool_decide_eq_false_2 by tauto. reflexivity.
    + rewrite bool_decide_eq_true_2 by tauto. reflexivity.
  - rewrite bool_decide_eq_false_2 by (intros [? ?]; discriminate).
    split_ifs.
  - rewrite bool_decide_eq_false_2 by (intros [? ?]; discriminate).
    split_ifs.
  - rewrite bool_decide_eq_false_2 by (intros [? ?]; discriminate).
    split_ifs.
  - rewrite bool_decide_eq_false_2 by (intros [? ?]; discriminate).
    split_ifs.
Qed.

(** A byte other than ESC leaves an instance in mode "text" as it is. *)
Lemma step_text self b :
  _state self = text -> b ≠ ESC -> fst (step self b) = self.
Proof.
  intros Hm Hb. unfold step, feed_body. cbn [f_self f_out f_i].
  rewrite Hm, is_esc, bool_decide_eq_false_2 by exact Hb. reflexivity.
Qed.

Lemma run_no_esc data self : ESC ∉ fst (run data self).
Proof.
  revert self. induction data as [|b data IH]; intros self.
  - cbn. apply not_elem_of_nil.
  - rewrite run_cons. cbn [fst]. rewrite emitted_spec.
    case_bool_decide as Hb.
    + cbn. apply not_elem_of_cons. split; [|apply IH].
      destruct Hb as [_ Hb]. congruence.
    + cbn. apply IH.
Qed.



Lemma feed_each_run chunks self :
  concat (fst (feed_each chunks self)) = fst (run (concat chunks) self)
  ∧ snd (feed_each chunks self) = snd (run (concat chunks) self).
Proof.
  revert self. induction chunks as [|c chunks IH]; intros self.
  - cbn. done.
  - cbn [feed_each concat]. rewrite feed_run, run_app.
    destruct (run c self) as [o s1]. cbn [fst snd].
    destruct (IH s1) as [IH1 IH2].
    destruct (feed_each chunks s1) as [os s2]. cbn [fst snd concat] in *.
    rewrite IH1, IH2. done.
Qed.

(** **** The claims about the filter *)

(** C1. Chunk invariance: however a byte stream is cut into
    consecutive chunks, feeding the chunks one by one to one instance
    and concatenating the returned values gives what a single [feed]
    of the whole stream returns from the same starting state (a fresh
    instance in particular), and the instance ends in the same state. *)
Theorem feed_chunk_invariance (chunks : list bytes) (self : t) :
  concat (fst (feed_each chunks self)) = fst (feed (concat chunks) self)
  ∧ snd (feed_each chunks self) = snd (feed (concat chunks) self).
Proof. rewrite feed_run. apply feed_each_run. Qed.

(** C5, as stated, fails: after [ESC] and "[" the instance is inside a
    control sequence, and [feed] of the chunk "31m", which holds no ESC
    byte, returns nothing. *)
Lemma feed_plain_chunk_counterexample :
  (ESC ∉ b_ "31m") ∧
  fst (feed (b_ "31m") (snd (feed [x1b; x5b] init))) = [] ∧
  b_ "31m" ≠ [].
Proof.
  split; [|split].
  - intros H. apply list_elem_of_In in H. cbn in H.
    repeat destruct H as [H|H]; try discriminate H. exact H.
  - vm_compute. reflexivity.
  - discriminate.
Qed.

(** C5, amended. An instance in mode "text" (a fresh one, or one whose
    last escape sequence is complete) returns a chunk without ESC byte
    unchanged, and stays as it was. *)
Theorem feed_plain_chunk (chunk : bytes) (self : t) :
  _state self = text ->
  ESC ∉ chunk ->
  feed chunk self = (chunk, self).
Proof.
  rewrite feed_run. intros Hm. induction chunk as [|b chunk IH]; intros Hesc.
  - reflexivity.
  - apply not_elem_of_cons in Hesc as [Hb Hrest].
    rewrite run_cons, emitted_spec, step_text by (exact Hm || congruence).
    rewrite bool_decide_eq_true_2 by (split; [exact Hm | congruence]).
    rewrite (IH Hrest). reflexivity.
Qed.

Lemma feed_plain_chunk_witness :
  feed (b_ "plain text") init = (b_ "plain text", init).
Proof.
  apply (feed_plain_chunk (b_ "plain text") init).
  - reflexivity.
  - intros H. apply list_elem_of_In in H. cbn in H.
    repeat destruct H as [H|H]; try discriminate H. exact H.
Defined.


(** C7. The CSI example: ESC [ 3 1 m HELLO ESC [ 0 m fed to a fresh
    instance in one call returns HELLO. *)
Theorem feed_csi_example :
  fst (feed [x1b; x5b; x33; x31; x6d; x48; x45; x4c; x4c; x4f; x1b; x5b; x30; x6d] init)
  = [x48; x45; x4c; x4c; x4f]
  ∧ [x48; x45; x4c; x4c; x4f] = b_ "HELLO".
Proof. split; vm_compute; reflexivity. Qed.

(** The other examples of the specification: an OSC sequence ended by
    BEL, and a CSI sequence split over three calls. *)
Example feed_osc_example :
  fst (feed (x1b :: b_ "]0;title" ++ [x07] ++ b_ "world") init) = b_ "world".
Proof. vm_compute. reflexivity. Qed.

Example feed_split_example :
  fst (feed_each [[x1b]; b_ "["; b_ "31m"] init) = [[]; []; []].
Proof. vm_compute. reflexivity. Qed.

(** Plain text is what lies outside the escape sequences: control
    characters such as BEL, CR and LF read in mode "text" are returned. *)
Example feed_keeps_control_characters :
  fst (feed [x07; x0d; x0a] init) = [x07; x0d; x0a].
Proof. vm_compute. reflexivity. Qed.

(** C10. No value returned by any [feed] call of any sequence of calls
    on a fresh instance contains the ESC byte. *)
Theorem feed_never_returns_esc (chunks : list bytes) :
  Forall (λ out, ESC ∉ out) (fst (feed_each chunks init)).
Proof.
  generalize init. induction chunks as [|c chunks IH]; intros self.
  - cbn. constructor.
  - cbn [feed_each]. rewrite feed_run.
    pose proof (run_no_esc c self) as Hc.
    destruct (run c self) as [o s1]. specialize (IH s1).
    destruct (feed_each chunks s1) as [os s2]. cbn [fst] in *.
    constructor; assumption.
Qed.

End StripperFacts.

(* ================================================================= *)
(** ** Properties of the relay *)

Module RelayFacts.
Import Relay.
Local Open Scope Z_scope.
Local Open Scope py_scope.

(** **** Sequences, handlers and loops *)

Section combinators.
Context {A B : Type}.

(** How a sequence leaves or falls through. *)
Lemma bind_inv (m : M A) (k : A -> M B) s r :
  bind m k s = r ->
  (exists a s', m s = (Normal a, s') /\ k a s' = r)
  \/ (exists x s', m s = (Leave x, s') /\ r = (Leave x, s')).
Proof.
  unfold bind. destruct (m s) as [[a|x] s']; intros <-; eauto 6.
Qed.

Lemma exits_bind Q (m : M A) (k : A -> M B) :
  exits_in Q m -> (forall a, exits_in Q (k a)) -> exits_in Q (bind m k).
Proof.
  intros Hm Hk s x. unfold bind.
  destruct (m s) as [[a|y] s'] eqn:E.
  - apply Hk.
  - cbn. intros [= <-]. apply (Hm s). rewrite E. reflexivity.
Qed.

Lemma exits_weaken (Q Q' : exit -> Prop) (m : M A) :
  exits_in Q m -> (forall x, Q x -> Q' x) -> exits_in Q' m.
Proof. intros Hm HQ s x E. apply HQ, (Hm s), E. Qed.

Lemma exits_ret Q (a : A) : exits_in Q (ret a).
Proof. intros s x [=]. Qed.

Lemma exits_leave (Q : exit -> Prop) x : Q x -> exits_in Q (@leave A x).
Proof. intros HQ s y [= <-]. exact HQ. Qed.

Lemma exits_try_except Q Q1 (body : M A) C h :
  exits_in Q1 body ->
  (forall e, Q1 (XRaise e) -> C e = true -> exits_in Q (h e)) ->
  (forall x, Q1 x -> (forall e, x = XRaise e -> C e = false) -> Q x) ->
  exits_in Q (try_except body C h).
Proof.
  intros Hb Hh Hx s x. unfold try_except.
  destruct (body s) as [[a|y] s'] eqn:E; [intros [=]|].
  assert (Q1 y) as Hy by (apply (Hb s); rewrite E; reflexivity).
  destruct y as [|v|e|c|]; try (cbn; intros [= <-]; apply Hx; [exact Hy|intros ? [=]]).
  destruct (C e) eqn:HC.
  - apply Hh; assumption.
  - cbn. intros [= <-]. apply Hx; [exact Hy|]. intros ? [= <-]. exact HC.
Qed.

Section keeps.
Context (R : relation state) `{!PreOrder R}.

Lemma keeps_bind (m : M A) (k : A -> M B) :
  keeps R m -> (forall a, keeps R (k a)) -> keeps R (bind m k).
Proof.
  intros Hm Hk s. unfold bind. specialize (Hm s).
  destruct (m s) as [[a|x] s']; cbn in *.
  - etrans; [exact Hm|apply Hk].
  - exact Hm.
Qed.

Lemma keeps_ret (a : A) : keeps R (ret a).
Proof. intros s. reflexivity. Qed.

Lemma keeps_leave x : keeps R (@leave A x).
Proof. intros s. reflexivity. Qed.

Lemma keeps_try_except (body : M A) C h :
  keeps R body -> (forall e, keeps R (h e)) -> keeps R (try_except body C h).
Proof.
  intros Hb Hh s. unfold try_except. specialize (Hb s).
  destruct (body s) as [[a|[|v|e|c|]] s']; cbn in *; try exact Hb.
  destruct (C e); cbn; [|exact Hb].
  etrans; [exact Hb|apply Hh].
Qed.

Lemma keeps_answer (r : result A) : keeps R (answer r).
Proof. destruct r; intros s; reflexivity. Qed.

Lemma keeps_os_answer (r : os_result A) : keeps R (os_answer r).
Proof. destruct r; intros s; reflexivity. Qed.

End keeps.
End combinators.

Section more.
Context (R : relation state) `{!PreOrder R}.

Lemma keeps_get : keeps R get.
Proof. intros s. reflexivity. Qed.

Lemma keeps_succeed r : keeps R (succeed r).
Proof. destruct r; intros s; reflexivity. Qed.

Lemma keeps_end_while m : keeps R m -> keeps R (end_while m).
Proof.
  intros H s. unfold end_while. specialize (H s).
  destruct (m s) as [[a|[|v|e|c|]] s']; exact H.
Qed.

End more.

Lemma exits_get Q : exits_in Q get.
Proof. intros s x [=]. Qed.

Lemma exits_end_while (Q Q1 : exit -> Prop) m :
  exits_in Q1 m -> (forall x, Q1 x -> x <> XBreak -> Q x) -> exits_in Q (end_while m).
Proof.
  intros Hm HQ s x. unfold end_while.
  destruct (m s) as [[a|y] s'] eqn:E; [intros [=]|].
  assert (Q1 y) as Hy by (apply (Hm s); rewrite E; reflexivity).
  destruct y; cbn; intros [= <-]; apply HQ; done.
Qed.

(** The calls and the control operators, unfolded to functions of
    the state. *)
Ltac unfold_calls :=
  unfold read_master, os_read, os_write, stdout_write, select, poll, wait,
    copy_winsz, os_close, tcgetattr, setraw, tcsetattr, signal_winch,
    openpty, Popen, strip, emit, modify, get, answer, os_answer, succeed,
    try_except, end_while, bind, ret, break_, return_, raise, sys_exit,
    pending, leave in *.

(** Symbolic execution of a block without loops. *)
Ltac exec := unfold_calls; repeat case_match; simplify_eq/=.

(** **** Logs *)

Lemma reads_from_app f l1 l2 :
  reads_from f (l1 ++ l2) = reads_from f l1 ++ reads_from f l2.
Proof. apply omap_app. Qed.

Lemma writes_to_app f l1 l2 :
  writes_to f (l1 ++ l2) = writes_to f l1 ++ writes_to f l2.
Proof. apply omap_app. Qed.

Lemma forwards_nil m f : forwards m f [].
Proof. reflexivity. Qed.

Lemma forwards_app m f l1 l2 :
  forwards m f l1 -> forwards m f l2 -> forwards m f (l1 ++ l2).
Proof.
  unfold forwards. intros H1 H2.
  rewrite writes_to_app, reads_from_app, filter_app, H1, H2. reflexivity.
Qed.


(** **** The relations are preorders *)

Lemma framed_preorder m f : PreOrder (framed m f).
Proof.
  split.
  - intros s. unfold framed. repeat split.
    intros _ _. exists []. rewrite app_nil_r. split; [reflexivity|apply forwards_nil].
  - intros s1 s2 s3 (Ht & Hf & Hr & Ho & Hl) (Ht' & Hf' & Hr' & Ho' & Hl').
    unfold framed. repeat split; try congruence.
    intros Hne Hs. destruct (Hl Hne Hs) as (e1 & E1 & F1).
    destruct (Hl' Hne) as (e2 & E2 & F2).
    { unfold stdin_is in *. rewrite Hf. exact Hs. }
    exists (e1 ++ e2). rewrite E2, E1, app_assoc. split; [reflexivity|].
    apply forwards_app; assumption.
Qed.
#[local] Existing Instance framed_preorder.

Lemma grows_quietly_preorder : PreOrder grows_quietly.
Proof.
  split.
  - intros s. exists []. rewrite app_nil_r. done.
  - intros s1 s2 s3 (e1 & E1 & F1) (e2 & E2 & F2).
    exists (e1 ++ e2). rewrite E2, E1, app_assoc, forallb_app, F1, F2. done.
Qed.
#[local] Existing Instance grows_quietly_preorder.

(** **** What the calls of the loop keep *)

Section framed.
Variables master f : fd.

Lemma framed_log s ext :
  (master <> f -> forwards master f ext) ->
  framed master f s (set_log (log s ++ ext) s).
Proof. intros H. unfold framed. cbn. repeat split. intros Hne _. eauto. Qed.

Lemma framed_emit e :
  (master <> f -> forwards master f [e]) -> keeps (framed master f) (emit e).
Proof. intros H s. apply framed_log, H. Qed.

Lemma framed_same s s' :
  tty s' = tty s -> stdin_fd s' = stdin_fd s -> raw_mode s' = raw_mode s ->
  old_tty_attrs s' = old_tty_attrs s -> log s' = log s ->
  framed master f s s'.
Proof.
  intros. unfold framed. repeat split; try assumption.
  intros _ _. exists []. rewrite app_nil_r. split; [assumption|apply forwards_nil].
Qed.

Lemma framed_read_master size r : keeps (framed master f) (os_read master size r).
Proof.
  unfold os_read. apply keeps_bind; [apply _| |intros; apply keeps_os_answer, _].
  apply framed_emit. intros Hne. unfold forwards. cbn.
  destruct r; [|reflexivity]. rewrite bool_decide_eq_false_2 by exact Hne.
  reflexivity.
Qed.

Lemma framed_stdout data r : keeps (framed master f) (stdout_write data r).
Proof.
  unfold stdout_write. apply keeps_bind; [apply _| |intros; apply keeps_succeed, _].
  apply framed_emit. reflexivity.
Qed.

Lemma framed_select rlist r : keeps (framed master f) (select rlist r).
Proof.
  unfold select. apply keeps_bind; [apply _| |intros; apply keeps_answer, _].
  apply framed_emit. reflexivity.
Qed.

Lemma framed_strip data : keeps (framed master f) (strip data).
Proof.
  intros s. unfold strip. destruct (stripper s) as [st|]; [|reflexivity].
  destruct (AnsiStripper.feed data st). apply framed_same; reflexivity.
Qed.

Lemma framed_poll exited status : keeps (framed master f) (poll exited status).
Proof.
  intros s. unfold poll. unfold_calls.
  destruct (returncode s); [reflexivity|]. destruct exited; [|reflexivity].
  apply framed_same; reflexivity.
Qed.

Lemma framed_wait timeout r : keeps (framed master f) (wait timeout r).
Proof.
  unfold wait. apply keeps_bind; [apply _|apply framed_emit; reflexivity|].
  intros _ s. unfold_calls. destruct (returncode s); [reflexivity|].
  destruct r; [|reflexivity]. apply framed_same; reflexivity.
Qed.

Lemma framed_kill a sig : keeps (framed master f) (_kill_process_group a sig).
Proof.
  intros s. unfold _kill_process_group. unfold_calls.
  destruct (ka_getpgid a); cbn; [|reflexivity].
  destruct (ka_delivered a); cbn; apply framed_log; reflexivity.
Qed.

End framed.

Section loop.
Variable timeout_s : option Z.
Variable su : setup.
Variables master f : fd.

Local Abbreviation R := (framed master f).

(** One step of a proof that a block of the loop keeps [framed]. *)
Ltac framed_step :=
  first
    [ assumption
    | match goal with H : forall _, keeps _ _ |- _ => apply H end
    | apply framed_read_master
    | apply framed_stdout | apply framed_select | apply framed_strip
    | apply framed_poll | apply framed_wait | apply framed_kill
    | apply keeps_ret, _ | apply keeps_leave, _ | apply keeps_get, _
    | apply keeps_bind; [apply _| |intro]
    | apply keeps_try_except; [apply _| |intro]
    | apply keeps_end_while; [apply _|]
    | apply keeps_end_while
    | match goal with
      | |- keeps _ (if ?c then _ else _) => destruct c
      | |- keeps _ (match ?c with _ => _ end) => destruct c
      end ].

Lemma framed_drain_loop reads : keeps R (drain_loop master reads).
Proof.
  induction reads as [|[r w] reads IH]; cbn [drain_loop]; repeat framed_step.
Qed.

Lemma framed_check_timeout it : keeps R (check_timeout timeout_s su it).
Proof. unfold check_timeout. repeat framed_step. Qed.

Lemma framed_relay_output ready it : keeps R (relay_output su master ready it).
Proof. unfold relay_output, read_master. repeat framed_step. Qed.

(** The one place where the log gets reads of [f] and writes to
    [master]: what is read is what is written. *)
Lemma framed_relay_input ready it : keeps R (relay_input master ready it).
Proof.
  intros s. unfold relay_input. unfold_calls.
  destruct (stdin_fd s) as [f'|] eqn:Hfd; [|reflexivity].
  case_bool_decide; [|reflexivity].
  unfold framed.
  destruct (it_stdin_read it) as [d|n]; cbn.
  - destruct d as [|b d]; cbn.
    + repeat split. intros Hne Hs. rewrite (Hs f' Hfd).
      eexists. split; [reflexivity|]. unfold forwards. cbn.
      rewrite bool_decide_eq_true_2 by reflexivity. reflexivity.
    + destruct (it_master_write it); cbn; repeat split; intros Hne Hs;
        rewrite (Hs f' Hfd), <- app_assoc; (eexists; split; [reflexivity|]);
        unfold forwards; cbn;
        rewrite !bool_decide_eq_true_2 by reflexivity;
        cbn; rewrite decide_True by done; reflexivity.
  - repeat split. intros Hne Hs. rewrite (Hs f' Hfd).
    eexists. split; [reflexivity|]. reflexivity.
Qed.

Lemma framed_drain_on_exit it : keeps R (drain_on_exit su master it).
Proof.
  pose proof (framed_drain_loop (it_drain it)).
  unfold drain_on_exit. repeat framed_step.
Qed.

Lemma framed_loop_body it : keeps R (loop_body timeout_s su master it).
Proof.
  pose proof (framed_check_timeout it).
  pose proof (fun r => framed_relay_output r it).
  pose proof (fun r => framed_relay_input r it).
  pose proof (framed_drain_on_exit it).
  unfold loop_body. repeat framed_step.
Qed.

Lemma framed_event_loop its : keeps R (event_loop timeout_s su master its).
Proof.
  induction its as [|it its IH]; cbn [event_loop].
  - framed_step.
  - intros s. pose proof (framed_loop_body it s) as Hb.
    destruct (loop_body timeout_s su master it s) as [[a|x] s'] eqn:E; cbn in *.
    + etrans; [exact Hb|apply IH].
    + exact Hb.
Qed.

End loop.

Section exits.
Variable timeout_s : option Z.
Variable su : setup.
Variable master : fd.

(** **** How the blocks of the loop body can leave *)

Lemma kill_falls_through a sig : exits_in (fun _ => False) (_kill_process_group a sig).
Proof.
  intros s x. unfold _kill_process_group. unfold_calls.
  destruct (ka_getpgid a); cbn; [|discriminate].
  destruct (ka_delivered a); cbn; discriminate.
Qed.

Lemma check_timeout_normal it s a s' :
  check_timeout timeout_s su it s = (Normal a, s') ->
  timed_out timeout_s su it = false /\ s' = s.
Proof.
  unfold check_timeout. destruct (timed_out timeout_s su it); [|intros [= <-]; done].
  intros H. apply bind_inv in H as [(? & ? & _ & H)|(? & ? & _ & [=])].
  apply bind_inv in H as [(? & ? & _ & [=])|(? & ? & _ & [=])].
Qed.

Lemma check_timeout_fires it s :
  timed_out timeout_s su it = true ->
  fst (check_timeout timeout_s su it s) = Return 124.
Proof.
  unfold check_timeout. intros ->.
  pose proof (kill_falls_through (it_term it) SIGTERM s) as H1.
  unfold bind at 1.
  destruct (_kill_process_group (it_term it) SIGTERM s) as [[[]|x] s1];
    [|destruct (H1 x eq_refl)].
  unfold bind, try_except, wait. unfold_calls. cbn.
  destruct (returncode s1); cbn; [reflexivity|].
  destruct (it_grace it); cbn; [reflexivity|].
  pose proof (kill_falls_through (it_kill it) SIGKILL
                (set_log (log s1 ++ [EWait (Some 2)]) s1)) as H2.
  destruct (_kill_process_group (it_kill it) SIGKILL _) as [[[]|x] s2];
    [reflexivity|destruct (H2 x eq_refl)].
Qed.

Lemma check_timeout_exits it :
  exits_in (fun x => x = XReturn 124 /\ timed_out timeout_s su it = true)
           (check_timeout timeout_s su it).
Proof.
  intros s x H. destruct (timed_out timeout_s su it) eqn:Ht.
  - rewrite (check_timeout_fires it s Ht) in H. injection H as <-. done.
  - unfold check_timeout in H. rewrite Ht in H. discriminate H.
Qed.

Lemma select_exits rlist it :
  exits_in (fun x => exists e, x = XRaise e /\ it_select it = Err e)
           (select rlist (it_select it)).
Proof.
  intros s x. unfold select. unfold_calls.
  destruct (it_select it); cbn; [discriminate|]. intros [= <-]. eauto.
Qed.

Lemma relay_output_exits ready it :
  exits_in (fun x => x = XBreak \/ exists e, x = XRaise e /\
              ((exists n, it_master_read it = Errno n /\ n <> EIO /\ e = OSError n)
               \/ it_stdout it = Some e))
           (relay_output su master ready it).
Proof.
  intros s x. unfold relay_output. exec; intros; simplify_eq/=; eauto.
  all: try (right; eexists; split; [reflexivity|]; left; eexists;
            split; [reflexivity|]; split; [|reflexivity];
            intros ->; discriminate).
Qed.

Lemma relay_input_falls_through ready it :
  exits_in (fun _ => False) (relay_input master ready it).
Proof. intros s x. unfold relay_input. exec; intros; simplify_eq/=. Qed.

Lemma os_read_exits f size r :
  exits_in (fun x => exists n, x = XRaise (OSError n) /\ r = Errno n)
           (os_read f size r).
Proof. intros s x. unfold os_read. exec; intros; simplify_eq/=. eauto. Qed.

Lemma strip_falls_through data : exits_in (fun _ => False) (strip data).
Proof. intros s x. unfold strip. repeat case_match; intros; simplify_eq/=. Qed.

Lemma stdout_write_exits data w :
  exits_in (fun x => exists e, x = XRaise e /\ w = Some e) (stdout_write data w).
Proof. intros s x. unfold stdout_write. exec; intros; simplify_eq/=. eauto. Qed.

Lemma drain_loop_exits reads :
  exits_in (fun x => x = XBreak \/ exists e, x = XRaise e /\
              (is_OSError e = true \/ exists r, (r, Some e) ∈ reads))
           (drain_loop master reads).
Proof.
  induction reads as [|[r w] reads IH]; cbn [drain_loop].
  - apply exits_bind; [|intros; apply exits_leave; auto].
    eapply exits_weaken; [apply os_read_exits|]. intros x (n & _ & [=]).
  - apply exits_bind.
    { eapply exits_weaken; [apply os_read_exits|].
      intros x (n & -> & _). right. eauto. }
    intros d. destruct (negb (truthy d)); [apply exits_leave; auto|].
    apply exits_bind.
    { eapply exits_weaken; [apply strip_falls_through|]. intros x []. }
    intros d'. apply exits_bind.
    { destruct (truthy d'); [|apply exits_ret].
      eapply exits_weaken; [apply stdout_write_exits|].
      intros x (e & -> & ->). right. eexists. split; [reflexivity|]. right.
      exists r. apply elem_of_cons. left. reflexivity. }
    intros _. eapply exits_weaken; [apply IH|].
    intros x [->|(e & -> & [He|(r' & Hin)])]; auto.
    + right. eauto.
    + right. eexists. split; [reflexivity|]. right. exists r'.
      apply elem_of_cons. right. exact Hin.
Qed.

Lemma drain_on_exit_exits it :
  exits_in (fun x => x = XBreak \/ exists e, x = XRaise e /\
              is_OSError e = false /\ exists r, (r, Some e) ∈ it_drain it)
           (drain_on_exit su master it).
Proof.
  unfold drain_on_exit. apply exits_bind.
  - intros s x. unfold poll. exec; intros; simplify_eq/=.
  - intros rc. destruct (is_not_None rc); [|apply exits_ret].
    apply exits_bind; [|intros; apply exits_leave; auto].
    eapply exits_try_except.
    + eapply exits_end_while; [apply drain_loop_exits|].
      intros x Hx Hb. instantiate (1 := fun x => exists e, x = XRaise e /\
        (is_OSError e = true \/ exists r, (r, Some e) ∈ it_drain it)).
      destruct Hx as [->|Hx]; [done|exact Hx].
    + intros; apply exits_ret.
    + intros x (e & -> & [He|Hin]) Hc.
      * rewrite (Hc e eq_refl) in He. discriminate.
      * right. exists e. split; [reflexivity|]. split; [apply Hc; reflexivity|exact Hin].
Qed.

Lemma loop_body_exits it : exits_in (pass_exit timeout_s su it) (loop_body timeout_s su master it).
Proof.
  unfold loop_body.
  apply exits_bind.
  { eapply exits_weaken; [apply check_timeout_exits|]. intros x [-> Ht]. cbn. done. }
  intros _. apply exits_bind; [apply exits_get|]. intros s0.
  apply exits_bind.
  { eapply exits_weaken; [apply select_exits|]. intros x (e & -> & He). left. exact He. }
  intros ready. apply exits_bind.
  { eapply exits_weaken; [apply relay_output_exits|].
    intros x [->|(e & -> & [H|H])]; cbn; unfold raise_source; auto. }
  intros _. apply exits_bind.
  { eapply exits_weaken; [apply relay_input_falls_through|]. intros x []. }
  intros _. eapply exits_weaken; [apply drain_on_exit_exits|].
  intros x [->|(e & -> & H)]; cbn; unfold raise_source; auto.
Qed.

(** How the loop can be left: by [break], by the timeout, by an
    exception of one of the passes; or it is still running. *)
Lemma event_loop_exits its s :
  exists x, fst (event_loop timeout_s su master its s) = Leave x /\
    (x = XBreak \/ x = XPending
     \/ (x = XReturn 124 /\ Exists (fun it => timed_out timeout_s su it = true) its)
     \/ (exists e it, x = XRaise e /\ it ∈ its /\ raise_source it e)).
Proof.
  revert s. induction its as [|it its IH]; intros s; cbn [event_loop].
  - exists XPending. auto.
  - pose proof (loop_body_exits it s) as Hb.
    destruct (loop_body timeout_s su master it s) as [[[]|x] s'].
    + destruct (IH s') as (x & Hx & H). exists x. split; [exact Hx|].
      destruct H as [H|[H|[[H1 H2]|(e & it' & H1 & H2 & H3)]]]; auto.
      * right; right; left. split; [exact H1|]. apply Exists_cons_tl, H2.
      * right; right; right. exists e, it'. rewrite elem_of_cons. auto.
    + specialize (Hb x eq_refl). exists x. split; [reflexivity|].
      destruct x as [|v|e|c|]; cbn in Hb.
      * left. reflexivity.
      * destruct Hb as [-> Ht]. right; right; left. split; [reflexivity|].
        apply Exists_cons_hd, Ht.
      * right; right; right. exists e, it. rewrite elem_of_cons. auto.
      * destruct Hb.
      * destruct Hb.
Qed.

(** A loop that is still running after [its0] goes on with the next
    passes of the script. *)
Lemma event_loop_app its0 rest s s1 :
  event_loop timeout_s su master its0 s = (Pending, s1) ->
  event_loop timeout_s su master (its0 ++ rest) s
  = event_loop timeout_s su master rest s1.
Proof.
  revert s. induction its0 as [|it its0 IH]; intros s; cbn [event_loop app].
  - intros [= <-]. reflexivity.
  - pose proof (loop_body_exits it s) as Hb.
    destruct (loop_body timeout_s su master it s) as [[[]|x] s'].
    + apply IH.
    + intros [= -> <-]. destruct (Hb XPending eq_refl).
Qed.

End exits.

(** **** The return code of the child *)

Lemma same_returncode_preorder : PreOrder same_returncode.
Proof.
  split; [intros s; reflexivity|].
  intros s1 s2 s3 H1 H2. unfold same_returncode in *. congruence.
Qed.
#[local] Existing Instance same_returncode_preorder.

Lemma rc_emit e : keeps same_returncode (emit e).
Proof. intros s. reflexivity. Qed.

Lemma rc_strip data : keeps same_returncode (strip data).
Proof. intros s. unfold strip. repeat case_match; reflexivity. Qed.

(** One step of a proof that a block leaves [p.returncode] alone. *)
Ltac rc_step :=
  first
    [ assumption
    | apply rc_emit | apply rc_strip
    | apply keeps_ret, _ | apply keeps_leave, _ | apply keeps_get, _
    | apply keeps_answer, _ | apply keeps_os_answer, _ | apply keeps_succeed, _
    | apply keeps_bind; [apply _| |intro]
    | apply keeps_try_except; [apply _| |intro]
    | apply keeps_end_while; [apply _|]
    | apply keeps_end_while
    | match goal with
      | |- keeps _ (if ?c then _ else _) => destruct c
      | |- keeps _ (match ?c with _ => _ end) => destruct c
      end ].

Section rc.
Variable timeout_s : option Z.
Variable su : setup.
Variable master : fd.

Lemma rc_drain_loop reads : keeps same_returncode (drain_loop master reads).
Proof.
  induction reads as [|[r w] reads IH]; cbn [drain_loop];
    unfold os_read, stdout_write; repeat rc_step.
Qed.

Lemma rc_relay_input ready it : keeps same_returncode (relay_input master ready it).
Proof. unfold relay_input, os_read, os_write. repeat rc_step. Qed.

Lemma rc_select rlist r : keeps same_returncode (select rlist r).
Proof. unfold select. repeat rc_step. Qed.

Lemma poll_rc exited s c s' :
  returncode_ok (su_status su) s ->
  poll exited (su_status su) s = (c, s') ->
  returncode_ok (su_status su) s' /\ c = Normal (returncode s').
Proof.
  unfold poll, returncode_ok. unfold_calls. intros Hs.
  destruct (returncode s) as [v|] eqn:Ev.
  - intros [= <- <-]. rewrite Ev. done.
  - destruct exited; cbn; intros [= <- <-]; cbn; rewrite ?Ev; auto.
Qed.

Lemma relay_output_rc ready it s c s' :
  returncode_ok (su_status su) s ->
  relay_output su master ready it s = (c, s') -> rc_post su c s'.
Proof.
  unfold relay_output, returncode_ok, rc_post. intros Hs H.
  exec; auto; destruct Hs; congruence.
Qed.

Lemma drain_on_exit_rc it s c s' :
  returncode_ok (su_status su) s ->
  drain_on_exit su master it s = (c, s') -> rc_post su c s'.
Proof.
  intros Hs H. unfold drain_on_exit in H.
  apply bind_inv in H as [(rc & s1 & Hp & H)|(x & s1 & Hp & [= -> ->])].
  2:{ apply (poll_rc _ _ _ _ Hs) in Hp as [_ [=]]. }
  apply (poll_rc _ _ _ _ Hs) in Hp as [Hok [= ->]].
  destruct (returncode s1) as [v|] eqn:Ev; cbn [is_not_None] in H.
  - set (d := try_except _ _ _) in H.
    assert (keeps same_returncode d) as Hd
      by (subst d; repeat rc_step; apply rc_drain_loop).
    specialize (Hd s1). unfold same_returncode in Hd.
    apply bind_inv in H as [(? & s2 & Hs2 & [= <- <-])|(x & s2 & Hs2 & [= -> ->])].
    + rewrite Hs2 in Hd. cbn in *. destruct Hok; congruence.
    + rewrite Hs2 in Hd. destruct x; try exact I. cbn in *.
      destruct Hok; congruence.
  - injection H as <- <-. exact Hok.
Qed.

Lemma loop_body_rc it s c s' :
  returncode_ok (su_status su) s ->
  loop_body timeout_s su master it s = (c, s') -> rc_post su c s'.
Proof.
  intros Hs H. unfold loop_body in H.
  apply bind_inv in H as [(u1 & s1 & Hc & H)|(x & s1 & Hc & [= -> ->])].
  2:{ pose proof (check_timeout_exits timeout_s su it s x) as Hx.
      rewrite Hc in Hx. destruct (Hx eq_refl) as [-> _]. exact I. }
  apply check_timeout_normal in Hc as [_ ->].
  apply bind_inv in H as [(s0 & s0' & [= <- <-] & H)|(y & sy & [=] & _)].
  apply bind_inv in H as [(ready & s2 & Hsel & H)|(x & s2 & Hsel & [= -> ->])].
  2:{ pose proof (select_exits ([master] ++ from_option (fun f => [f]) [] (stdin_fd s)) it s x) as Hx.
      rewrite Hsel in Hx. destruct (Hx eq_refl) as (e & -> & _). exact I. }
  pose proof (rc_select ([master] ++ from_option (fun f => [f]) [] (stdin_fd s)) (it_select it) s) as Hk.
  rewrite Hsel in Hk.
  cbn in Hk. unfold same_returncode in Hk.
  assert (returncode_ok (su_status su) s2) as Hs2
    by (unfold returncode_ok in *; congruence).
  apply bind_inv in H as [(u3 & s3 & Ho & H)|(x & s3 & Ho & [= -> ->])].
  2:{ apply (relay_output_rc _ _ _ _ _ Hs2 Ho). }
  apply (relay_output_rc _ _ _ _ _ Hs2) in Ho. cbn in Ho.
  apply bind_inv in H as [(u4 & s4 & Hi & H)|(x & s4 & Hi & [= -> ->])].
  2:{ pose proof (relay_input_falls_through master ready it s3 x) as Hx.
      rewrite Hi in Hx. destruct (Hx eq_refl). }
  pose proof (rc_relay_input ready it s3) as Hk'. rewrite Hi in Hk'.
  cbn in Hk'. unfold same_returncode in Hk'.
  apply (drain_on_exit_rc it s4); [|exact H].
  unfold returncode_ok in *. congruence.
Qed.

Lemma event_loop_break its s s' :
  returncode_ok (su_status su) s ->
  event_loop timeout_s su master its s = (Break, s') ->
  returncode s' = Some (su_status su).
Proof.
  revert s. induction its as [|it its IH]; intros s Hs; cbn [event_loop].
  - discriminate.
  - pose proof (loop_body_rc it s) as Hb.
    destruct (loop_body timeout_s su master it s) as [[[]|x] s1].
    + apply IH. exact (Hb _ _ Hs eq_refl).
    + intros [= -> <-]. exact (Hb _ _ Hs eq_refl).
Qed.

End rc.

Section session.
Variable cmd : list string.
Variable cwd : option string.
Variable timeout_s : option Z.
Variable env : gmap string string.
Variable strip_ansi : bool.
Variable su : setup.

(** **** Before the [try] *)

Lemma before_try_spec s c s1 :
  before_try cmd cwd env strip_ansi su s = (c, s1) ->
  grows_quietly s s1 /\
  match c with
  | Normal m =>
      (exists sl, su_openpty su = Ok (m, sl)) /\ su_popen su = None
      /\ returncode s1 = None /\ stdin_is (su_fileno su) s1
      /\ (raw_mode s1 = true ->
          stdin_fd s1 = Some (su_fileno su) /\ old_tty_attrs s1 = Some (tty s))
      /\ (enters_raw_mode su -> raw_mode s1 = true)
  | Raise e => su_openpty su = Err e \/ su_popen su = Some e
  | _ => False
  end.
Proof.
  unfold before_try, enters_raw_mode, grows_quietly, stdin_is. intros H.
  destruct su as [op isatty fileno winsz popen tcget sraw sig start status cl tcset].
  cbn [su_openpty su_isatty su_fileno su_winsz su_popen su_tcgetattr su_setraw
       su_signal] in *.
  destruct op as [[m sl]|e]; cbn in H; [|injection H as <- <-].
  2:{ split; [exists []; rewrite app_nil_r; done|auto]. }
  destruct isatty, winsz, popen, tcget, sraw, sig; unfold_calls; cbn in H;
    injection H as <- <-; cbn;
    (split; [eexists; split; [rewrite <- ?app_assoc; reflexivity|reflexivity]|]);
    auto; repeat split; eauto; try discriminate; try congruence;
    try (intros ([? ?] & ? & ? & ? & ? & ?); discriminate).
Qed.

(** **** The [finally] block *)

Lemma cleanup_spec m s :
  exists s', cleanup su m s = (Normal tt, s')
    /\ grows_quietly s s'
    /\ forall f old, raw_mode s = true -> stdin_fd s = Some f ->
         old_tty_attrs s = Some old ->
         log s' = log s ++ [EClose m; ETcSetAttr f old]
         /\ (su_tcsetattr su = None -> tty s' = old).
Proof.
  unfold cleanup, grows_quietly. unfold_calls.
  destruct (su_close su); cbn;
    destruct (raw_mode s), (stdin_fd s), (old_tty_attrs s); cbn;
    destruct (su_tcsetattr su); cbn;
    (eexists; split; [reflexivity|]; cbn;
     split; [eexists; split; [rewrite <- ?app_assoc; reflexivity|reflexivity]|]);
    intros ? ? ? ? ?; simplify_eq; rewrite <- ?app_assoc; split; done.
Qed.

Lemma try_finally_cleanup {A} (body : M A) m s :
  try_finally body (cleanup su m) s
  = match body s with
    | (Pending, s') => (Pending, s')
    | (c, s') => (c, snd (cleanup su m s'))
    end.
Proof.
  unfold try_finally. destruct (body s) as [c s'].
  destruct (cleanup_spec m s') as (s'' & -> & _).
  destruct c as [a|[| | | |]]; reflexivity.
Qed.

(** **** The body of the [try] *)

Lemma session_spec m its s :
  returncode_ok (su_status su) s ->
  exists x s', event_loop timeout_s su m its s = (Leave x, s') /\
    session timeout_s su m its s
    = match x with
      | XBreak => (Return (su_status su), set_log (log s' ++ [EWait None]) s')
      | _ => (Leave x, s')
      end.
Proof.
  intros Hs.
  pose proof (event_loop_break timeout_s su m its s) as Hb.
  destruct (event_loop_exits timeout_s su m its s) as (x & Hx & _).
  destruct (event_loop timeout_s su m its s) as [c s'] eqn:E. cbn in Hx. subst c.
  exists x, s'. split; [reflexivity|].
  unfold session, bind at 1, end_while. rewrite E.
  destruct x; try reflexivity.
  specialize (Hb s' Hs eq_refl).
  unfold wait, bind, emit, modify, get, ret, return_, leave. cbn. rewrite Hb.
  reflexivity.
Qed.

Lemma run_with_pty_unfold its s :
  run_with_pty cmd cwd timeout_s env strip_ansi su its s
  = match before_try cmd cwd env strip_ansi su s with
    | (Normal m, s1) =>
        try_finally (session timeout_s su m its) (cleanup su m) s1
    | (Leave x, s1) => (Leave x, s1)
    end.
Proof. reflexivity. Qed.

End session.

Section run.
Variable cmd : list string.
Variable cwd : option string.
Variable timeout_s : option Z.
Variable env : gmap string string.
Variable strip_ansi : bool.
Variable su : setup.

Local Abbreviation run := (run_with_pty cmd cwd timeout_s env strip_ansi su).
Local Abbreviation prepare := (before_try cmd cwd env strip_ansi su).
Local Abbreviation loop := (event_loop timeout_s su).

Lemma run_with_pty_spec its s :
  match prepare s with
  | (Normal m, s1) =>
      exists x s2, loop m its s1 = (Leave x, s2) /\ run its s = final su m x s2
  | (Leave x, s1) => run its s = (Leave x, s1)
  end.
Proof.
  rewrite run_with_pty_unfold.
  destruct (prepare s) as [[m|x] s1] eqn:Ep; [|reflexivity].
  destruct (before_try_spec _ _ _ _ _ _ _ _ Ep) as (_ & _ & _ & Hrc & _).
  destruct (session_spec timeout_s su m its s1) as (x & s2 & El & Es).
  { left. exact Hrc. }
  exists x, s2. split; [exact El|].
  rewrite try_finally_cleanup, Es. destruct x; reflexivity.
Qed.

(** [run_with_pty] is still running exactly when its loop is. *)
Lemma run_pending its s :
  fst (run its s) = Pending ->
  exists m s1 s2, prepare s = (Normal m, s1) /\ loop m its s1 = (Pending, s2).
Proof.
  pose proof (run_with_pty_spec its s) as H.
  destruct (prepare s) as [[m|x] s1] eqn:Ep.
  - destruct H as (x & s2 & El & ->). intros Hx.
    exists m, s1, s2. split; [reflexivity|].
    destruct x; cbn in Hx; try discriminate Hx. exact El.
  - rewrite H. cbn. intros [= ->].
    destruct (before_try_spec _ _ _ _ _ _ _ _ Ep) as (_ & []).
Qed.


Lemma loop_body_read_error m it s ready n :
  timed_out timeout_s su it = false ->
  it_select it = Ok ready -> m ∈ ready ->
  it_master_read it = Errno n -> n <> EIO ->
  exists s', loop_body timeout_s su m it s = (Raise (OSError n), s').
Proof.
  intros Ht Hsel Hin Hr Hn.
  unfold loop_body, check_timeout, relay_output. rewrite Ht, Hsel.
  unfold_calls. cbn. rewrite bool_decide_eq_true_2 by exact Hin. rewrite Hr. cbn.
  apply Z.eqb_neq in Hn. rewrite Hn. eauto.
Qed.


End run.

(** **** The claims about the relay *)




(** C3. When the snapshot of the terminal attributes was taken and
    raw mode entered, [run_with_pty] does not end, be it by returning
    the child's status, by returning 124 or by an exception of the
    loop, before it has called [tcsetattr] with the attributes the
    terminal had at the start, as the last call it makes; the terminal
    then has those attributes again (the call succeeding). *)
Theorem terminal_restored cmd cwd timeout_s env strip_ansi su its s :
  enters_raw_mode su ->
  fst (run_with_pty cmd cwd timeout_s env strip_ansi su its s) <> Pending ->
  (exists l, log (snd (run_with_pty cmd cwd timeout_s env strip_ansi su its s))
             = l ++ [ETcSetAttr (su_fileno su) (tty s)])
  /\ (su_tcsetattr su = None ->
      tty (snd (run_with_pty cmd cwd timeout_s env strip_ansi su its s)) = tty s).
Proof.
  intros Hraw Hp.
  pose proof (run_with_pty_spec cmd cwd timeout_s env strip_ansi su its s) as H.
  destruct (before_try cmd cwd env strip_ansi su s) as [[m|x] s1] eqn:Ep.
  2:{ destruct (before_try_spec _ _ _ _ _ _ _ _ Ep) as (_ & Hx).
      destruct Hraw as ((p & Ho) & Hpo & _).
      destruct x as [|v|e|c|]; try exact (False_ind _ Hx).
      destruct Hx; congruence. }
  destruct (before_try_spec _ _ _ _ _ _ _ _ Ep) as (_ & _ & _ & _ & _ & Hr1 & Hr2).
  specialize (Hr2 Hraw). destruct (Hr1 Hr2) as [Hfd Hold].
  destruct H as (x & s2 & El & E). rewrite E in *. clear E.
  pose proof (framed_event_loop timeout_s su m (su_fileno su) its s1) as Hf.
  rewrite El in Hf. destruct Hf as (Ht & Hf & Hr & Ho & _). cbn in *.
  assert (forall s3, raw_mode s3 = raw_mode s2 -> stdin_fd s3 = stdin_fd s2 ->
            old_tty_attrs s3 = old_tty_attrs s2 ->
            (exists l, log (snd (cleanup su m s3)) = l ++ [ETcSetAttr (su_fileno su) (tty s)])
            /\ (su_tcsetattr su = None -> tty (snd (cleanup su m s3)) = tty s)) as Hc.
  { intros s3 E1 E2 E3. destruct (cleanup_spec su m s3) as (s4 & -> & _ & Hs4).
    destruct (Hs4 (su_fileno su) (tty s)) as [Hl Ht']; try congruence.
    cbn. split; [|exact Ht'].
    exists (log s3 ++ [EClose m]). rewrite Hl, <- app_assoc. reflexivity. }
  destruct x; cbn in Hp |- *; try (apply Hc; reflexivity). done.
Qed.

Lemma terminal_restored_witness :
  enters_raw_mode (sample_setup 0)
  /\ fst (run_with_pty sample_cmd None None ∅ true (sample_setup 0)
            [chat; broken 9] (initial [0])) <> Pending
  /\ (exists l,
        log (snd (run_with_pty sample_cmd None None ∅ true (sample_setup 0)
                    [chat; broken 9] (initial [0])))
        = l ++ [ETcSetAttr 0 [0]])
  /\ tty (snd (run_with_pty sample_cmd None None ∅ true (sample_setup 0)
                 [chat; broken 9] (initial [0]))) = [0].
Proof.
  assert (enters_raw_mode (sample_setup 0)) as Hraw.
  { unfold enters_raw_mode. cbn. eauto 10. }
  assert (fst (run_with_pty sample_cmd None None ∅ true (sample_setup 0)
                 [chat; broken 9] (initial [0])) <> Pending) as Hend.
  { vm_compute. discriminate. }
  split; [exact Hraw|]. split; [exact Hend|].
  destruct (terminal_restored sample_cmd None None ∅ true (sample_setup 0)
              [chat; broken 9] (initial [0]) Hraw Hend) as [Hlog Htty].
  split; [exact Hlog|]. apply Htty. reflexivity.
Defined.

(** The three ways out on the sample script: the child exits with
    status 0, the timeout of 5 ticks elapses, a read fails.  The
    terminal, raw ([1]) during the session, has the attributes [0]
    again. *)
Example terminal_restored_on_exit :
  let r := run_with_pty sample_cmd None None ∅ true (sample_setup 0)
             [chat; hangup 102] (initial [0]) in
  fst r = Return 0 /\ tty (snd r) = [0] /\ stdout_of (log (snd r)) = b_ "hi".
Proof. vm_compute. done. Qed.

Example terminal_restored_on_timeout :
  let r := run_with_pty sample_cmd None (Some 5) ∅ true (sample_setup 0)
             [chat; hangup 106] (initial [0]) in
  fst r = Return 124 /\ tty (snd r) = [0].
Proof. vm_compute. done. Qed.

Example terminal_raw_during_session :
  let r := run_with_pty sample_cmd None None ∅ true (sample_setup 0)
             [chat] (initial [0]) in
  fst r = Pending /\ tty (snd r) = [1].
Proof. vm_compute. done. Qed.

(** C4, as stated, fails: a read of the controller endpoint that
    fails with an errno other than [EIO] (here 9, [EBADF]) is raised
    again and ends the session with that exception, no timeout being
    configured. *)
Lemma read_error_aborts_session :
  fst (run_with_pty sample_cmd None None ∅ true (sample_setup 0)
         [chat; broken 9] (initial [0]))
  = Raise (OSError 9)
  /\ 9 <> EIO.
Proof. split; [vm_compute; reflexivity|discriminate]. Qed.

(** C4, amended. A read of the controller endpoint that fails with
    [EIO] counts as an empty read.  An exception that ends
    [run_with_pty] comes from the allocation of the pair, from the
    spawn, or from a pass of the loop through [select], through a read
    of the controller endpoint failing with an errno other than [EIO],
    or through a write to stdout; never from a read of the caller's
    input, from a write to the controller endpoint or from a read of
    the final drain.  And a read of the controller endpoint failing
    with an errno other than [EIO], in a pass that is reached, ends the
    session with that [OSError]. *)
Theorem read_errors_in_loop cmd cwd timeout_s env strip_ansi su its s :
  let run l := fst (run_with_pty cmd cwd timeout_s env strip_ansi su l s) in
  (forall m s', fst (read_master m (Errno EIO) s') = Normal [])
  /\ (forall e, run its = Raise e ->
        su_openpty su = Err e \/ su_popen su = Some e
        \/ exists it, it ∈ its /\ raise_source it e)
  /\ (forall k it m sl ready n,
        su_openpty su = Ok (m, sl) ->
        its !! k = Some it -> run (take k its) = Pending ->
        timed_out timeout_s su it = false ->
        it_select it = Ok ready -> m ∈ ready ->
        it_master_read it = Errno n -> n <> EIO ->
        run its = Raise (OSError n)).
Proof.
  cbn zeta. split; [|split].
  - intros m s'. reflexivity.
  - intros e Hr.
    pose proof (run_with_pty_spec cmd cwd timeout_s env strip_ansi su its s) as H.
    destruct (before_try cmd cwd env strip_ansi su s) as [[m|x] s1] eqn:Ep.
    + destruct H as (x & s2 & El & E). rewrite E in Hr.
      destruct (event_loop_exits timeout_s su m its s1) as (y & Hy & Hc).
      rewrite El in Hy. cbn in Hy. injection Hy as <-.
      destruct Hc as [->|[->|[[-> Hex]|(e' & it & -> & Hin & Hsrc)]]]; cbn in Hr;
        try discriminate Hr. injection Hr as <-. eauto.
    + rewrite H in Hr. cbn in Hr. injection Hr as ->.
      destruct (before_try_spec _ _ _ _ _ _ _ _ Ep) as (_ & [?|?]); auto.
  - intros k it m sl ready n Ho Hk Hp Ht Hsel Hin Hr Hn.
    pose proof (run_pending _ _ _ _ _ _ _ _ Hp) as (m' & s1 & s2 & Ep & _).
    destruct (before_try_spec _ _ _ _ _ _ _ _ Ep) as (_ & (sl' & Ho') & _).
    assert (m' = m) as -> by congruence.
    apply run_pending in Hp as (m'' & s1' & s2' & Ep' & El).
    assert (m'' = m) as -> by congruence.
    pose proof (run_with_pty_spec cmd cwd timeout_s env strip_ansi su its s) as H.
    rewrite Ep' in H. destruct H as (y & s3 & El' & ->).
    rewrite <- (take_drop_middle its k it Hk) in El'.
    rewrite (event_loop_app _ _ _ _ _ _ _ El) in El'.
    cbn [event_loop] in El'.
    destruct (loop_body_read_error timeout_s su m it s2' ready n Ht Hsel Hin Hr Hn)
      as (s' & Hb).
    rewrite Hb in El'. injection El' as <- <-. reflexivity.
Qed.

Lemma read_errors_in_loop_witness :
  su_openpty (sample_setup 0) = Ok (3, 4)
  /\ [chat; broken 4] !! 1%nat = Some (broken 4)
  /\ fst (run_with_pty sample_cmd None None ∅ false (sample_setup 0)
            (take 1 [chat; broken 4]) (initial [0])) = Pending
  /\ 4 <> EIO
  /\ fst (run_with_pty sample_cmd None None ∅ false (sample_setup 0)
            [chat; broken 4] (initial [0])) = Raise (OSError 4).
Proof.
  split; [reflexivity|]. split; [reflexivity|]. split; [reflexivity|].
  split; [discriminate|].
  apply (proj2 (proj2 (read_errors_in_loop sample_cmd None None ∅ false
                         (sample_setup 0) [chat; broken 4] (initial [0])))
               1%nat (broken 4) 3 4 [3] 4);
    try reflexivity; [|discriminate].
  apply list_elem_of_In. left. reflexivity.
Defined.



(** With escape stripping on, the up-arrow key sequence typed by the
    caller reaches the controller endpoint with its ESC byte. *)
Example escape_sequence_forwarded :
  writes_to 3
    (log (snd (run_with_pty sample_cmd None None ∅ true (sample_setup 0)
                 [chat; hangup 102] (initial [0]))))
  = [[x1b; x5b; x41]].
Proof. vm_compute. reflexivity. Qed.

(** C9. When no argument for the target program is left after an
    optional leading "--", [main] writes the usage error and exits
    with status 2, and its log holds neither the allocation of a
    pseudo-terminal nor the spawn of a child. *)
Theorem main_usage_error args environ su its a :
  args_claude_args args = [] \/ args_claude_args args = ["--"%string] ->
  main args environ su its (initial a)
  = (Exit 2,
     set_log [EStderr "No claude args provided. Example: -- -p 'hello'"] (initial a))
  /\ Forall (fun e => acquires e = false)
       (log (snd (main args environ su its (initial a)))).
Proof.
  intros [H|H]; unfold main; rewrite H; cbn; split; try reflexivity;
    repeat constructor.
Qed.

Lemma main_usage_error_witness :
  args_claude_args (sample_args ["--"%string]) = ["--"%string]
  /\ fst (main (sample_args ["--"%string]) ∅ (sample_setup 0) [chat] (initial [0]))
     = Exit 2
  /\ Forall (fun e => acquires e = false)
       (log (snd (main (sample_args ["--"%string]) ∅ (sample_setup 0) [chat]
                    (initial [0])))).
Proof.
  split; [reflexivity|].
  destruct (main_usage_error (sample_args ["--"%string]) ∅ (sample_setup 0)
              [chat] [0]) as [H1 H2]; [right; reflexivity|].
  split; [rewrite H1; reflexivity|exact H2].
Defined.

(** With an argument left, [main] goes on to [run_with_pty]. *)
Example main_runs_child :
  fst (main (sample_args ["--"; "-p"; "hello"]%string) ∅ (sample_setup 7)
         [chat; hangup 102] (initial [0]))
  = Return 7.
Proof. vm_compute. reflexivity. Qed.

End RelayFacts.

(* ================================================================= *)
(** ** More properties of the filter *)

Module StripperExtra.
Import AnsiStripper StripperFacts Sequences.
Local Open Scope N_scope.

(** **** One byte at a time *)

Lemma to_N_eqb (b c : byte) : (to_N b =? to_N c) = bool_decide (b = c).
Proof.
  case_bool_decide as Hb.
  - subst. apply N.eqb_refl.
  - apply N.eqb_neq. intros H. apply Hb, to_N_inj, H.
Qed.

(** The comparisons of [feed], as equalities of bytes. *)
Ltac byte_tests :=
  change 0x1B with (to_N ESC);
  change 0x07 with (to_N BEL);
  change (ord "[") with (to_N x5b);
  change (ord "]") with (to_N x5d);
  change (ord "P") with (to_N x50);
  change (ord "\") with (to_N x5c);
  rewrite ?to_N_eqb.

Lemma step_eq self b :
  step self b
  = match _state self with
    | text =>
        if bool_decide (b = ESC) then (set_state esc self, None)
        else (self, Some b)
    | esc =>
        if bool_decide (b = x5b) then (set_state csi self, None)
        else if bool_decide (b = x5d)
        then (set_osc_esc false (set_state osc self), None)
        else if bool_decide (b = x50)
        then (set_dcs_esc false (set_state dcs self), None)
        else (set_state text self, None)
    | csi =>
        if is_final b then (set_state text self, None) else (self, None)
    | osc =>
        if _osc_esc self
        then (set_osc_esc false
                (if bool_decide (b = x5c) then set_state text self else self),
              None)
        else if bool_decide (b = BEL) then (set_state text self, None)
        else if bool_decide (b = ESC) then (set_osc_esc true self, None)
        else (self, None)
    | dcs =>
        if _dcs_esc self
        then (set_dcs_esc false
                (if bool_decide (b = x5c) then set_state text self else self),
              None)
        else if bool_decide (b = ESC) then (set_dcs_esc true self, None)
        else (self, None)
    end.
Proof.
  unfold step, feed_body, is_final. cbn [f_self f_out f_i].
  change (1 <=? 0)%nat with false. byte_tests.
  destruct (_state self); cbn beta iota; split_ifs.
Qed.

Lemma run_swallow b rest self self' :
  step self b = (self', None) -> run (b :: rest) self = run rest self'.
Proof.
  intros H. cbn [run]. rewrite H. destruct (run rest self'); reflexivity.
Qed.


Lemma step_flags_ok self b : flags_ok self -> flags_ok (fst (step self b)).
Proof.
  unfold flags_ok. intros [Ho Hd]. rewrite step_eq.
  destruct self as [m fo fd]. cbn in *.
  destruct m, fo, fd; cbn in *;
    try discriminate (Ho eq_refl); try discriminate (Hd eq_refl);
    repeat case_match; cbn; split; intros; done.
Qed.

Lemma run_flags_ok data self : flags_ok self -> flags_ok (snd (run data self)).
Proof.
  revert self. induction data as [|b data IH]; intros self H; [exact H|].
  rewrite run_cons. cbn [snd]. apply IH, step_flags_ok, H.
Qed.

(** Inside a sequence, the bytes that do not end it are swallowed and
    leave the instance as it is. *)
Lemma run_inside_csi data self :
  _state self = csi -> Forall (fun b => is_final b = false) data ->
  run data self = ([], self).
Proof.
  intros Hm. induction 1 as [|b data Hb _ IH]; [reflexivity|].
  rewrite (run_swallow b data self self); [exact IH|].
  rewrite step_eq, Hm, Hb. reflexivity.
Qed.

Lemma run_inside_osc data self :
  _state self = osc -> _osc_esc self = false -> BEL ∉ data -> ESC ∉ data ->
  run data self = ([], self).
Proof.
  intros Hm Hf. induction data as [|b data IH]; intros Hbel Hesc; [reflexivity|].
  apply not_elem_of_cons in Hbel as [Hb1 Hbel].
  apply not_elem_of_cons in Hesc as [Hb2 Hesc].
  rewrite (run_swallow b data self self); [exact (IH Hbel Hesc)|].
  rewrite step_eq, Hm, Hf.
  rewrite !bool_decide_eq_false_2 by congruence. reflexivity.
Qed.

Lemma run_inside_dcs data self :
  _state self = dcs -> _dcs_esc self = false -> ESC ∉ data ->
  run data self = ([], self).
Proof.
  intros Hm Hf. induction data as [|b data IH]; intros Hesc; [reflexivity|].
  apply not_elem_of_cons in Hesc as [Hb2 Hesc].
  rewrite (run_swallow b data self self); [exact (IH Hesc)|].
  rewrite step_eq, Hm, Hf.
  rewrite !bool_decide_eq_false_2 by congruence. reflexivity.
Qed.

Lemma run_app_swallowed d1 d2 self self' :
  run d1 self = ([], self') -> run (d1 ++ d2) self = run d2 self'.
Proof.
  intros H. rewrite run_app, H. cbn. destruct (run d2 self'); reflexivity.
Qed.

(** **** More about the filter *)

(** X1. In every state a fresh instance can reach, whatever the chunks
    fed to it, [_osc_esc] is set only in state "osc" and [_dcs_esc]
    only in state "dcs". *)
Theorem flags_belong_to_their_state (chunks : list bytes) :
  flags_ok (snd (feed_each chunks init)).
Proof.
  rewrite (proj2 (feed_each_run chunks init)). apply run_flags_ok.
  split; discriminate.
Qed.

(** X2. A complete CSI sequence met in mode "text" (ESC, "[", any
    bytes outside 0x40-0x7E, one byte inside) is removed whole: [feed]
    goes on with what follows as if the sequence were not there. *)
Theorem csi_sequence_removed (params : bytes) (final : byte) (rest : bytes) (self : t) :
  _state self = text ->
  Forall (fun b => is_final b = false) params ->
  is_final final = true ->
  feed (csi_sequence params final ++ rest) self = feed rest self.
Proof.
  intros Hm Hp Hf. rewrite !feed_run. unfold csi_sequence.
  cbn [app]. rewrite (run_swallow ESC _ self (set_state esc self)).
  2:{ rewrite step_eq, Hm. reflexivity. }
  rewrite (run_swallow x5b _ _ (set_state csi self)).
  2:{ rewrite step_eq. reflexivity. }
  rewrite <- app_assoc.
  rewrite (run_app_swallowed params _ _ (set_state csi self)).
  2:{ apply run_inside_csi; [reflexivity|exact Hp]. }
  cbn [app]. rewrite (run_swallow final rest _ self); [reflexivity|].
  rewrite step_eq. cbn. rewrite Hf. destruct self as [m fo fd]. cbn in *.
  subst m. reflexivity.
Qed.

Lemma csi_sequence_removed_witness :
  _state init = text
  /\ Forall (fun b => is_final b = false) (b_ "1;31")
  /\ is_final "m"%byte = true
  /\ feed (csi_sequence (b_ "1;31") "m"%byte ++ b_ "red") init = feed (b_ "red") init.
Proof.
  assert (Forall (fun b => is_final b = false) (b_ "1;31")) as Hp
    by (repeat constructor).
  split; [reflexivity|]. split; [exact Hp|]. split; [reflexivity|].
  apply (csi_sequence_removed (b_ "1;31") "m"%byte (b_ "red") init);
    [reflexivity|exact Hp|reflexivity].
Defined.

(** X3. An OSC sequence met in mode "text" is removed whole, whether
    it ends with BEL or with ESC \, its body holding neither BEL nor
    ESC. *)
Theorem osc_sequence_removed (body terminator rest : bytes) (self : t) :
  _state self = text -> _osc_esc self = false ->
  BEL ∉ body -> ESC ∉ body ->
  terminator = [BEL] \/ terminator = ST ->
  feed (osc_sequence body terminator ++ rest) self = feed rest self.
Proof.
  intros Hm Hflag Hbel Hesc Ht. rewrite !feed_run. unfold osc_sequence.
  cbn [app]. rewrite (run_swallow ESC _ self (set_state esc self)).
  2:{ rewrite step_eq, Hm. reflexivity. }
  set (inside := set_osc_esc false (set_state osc self)).
  rewrite (run_swallow x5d _ _ inside).
  2:{ rewrite step_eq. reflexivity. }
  rewrite <- !app_assoc.
  rewrite (run_app_swallowed body _ _ inside).
  2:{ apply run_inside_osc; [reflexivity|reflexivity|exact Hbel|exact Hesc]. }
  assert (set_state text inside = self) as Hback.
  { destruct self as [m fo fd]. cbn in *. subst. reflexivity. }
  destruct Ht as [->| ->]; cbn [app ST].
  - rewrite (run_swallow BEL rest _ self); [reflexivity|].
    rewrite step_eq. cbn. rewrite Hback. reflexivity.
  - rewrite (run_swallow ESC _ _ (set_osc_esc true inside)).
    2:{ rewrite step_eq. reflexivity. }
    rewrite (run_swallow x5c rest _ self); [reflexivity|].
    rewrite step_eq. cbn. f_equal.
    destruct self as [m fo fd]. cbn in *. subst. reflexivity.
Qed.

Lemma not_in_bytes (b : byte) (l : bytes) :
  forallb (fun c => negb (Byte.eqb c b)) l = true -> b ∉ l.
Proof.
  induction l as [|c l IH]; cbn; [intros _; apply not_elem_of_nil|].
  intros [Hc Hl]%andb_true_iff. apply not_elem_of_cons. split; [|apply IH, Hl].
  intros ->. rewrite (Byte.byte_dec_lb eq_refl) in Hc. discriminate.
Qed.

Lemma osc_sequence_removed_witness :
  (BEL ∉ b_ "0;title") /\ (ESC ∉ b_ "0;title")
  /\ feed (osc_sequence (b_ "0;title") ST ++ b_ "world") init = feed (b_ "world") init.
Proof.
  assert (BEL ∉ b_ "0;title") as H1 by (apply not_in_bytes; reflexivity).
  assert (ESC ∉ b_ "0;title") as H2 by (apply not_in_bytes; reflexivity).
  split; [exact H1|]. split; [exact H2|].
  apply (osc_sequence_removed (b_ "0;title") ST (b_ "world") init);
    [reflexivity|reflexivity|exact H1|exact H2|right; reflexivity].
Defined.

(** X4. A DCS sequence met in mode "text" is removed whole when it
    ends with ESC \; BEL does not end it, so its body may hold BEL. *)
Theorem dcs_sequence_removed (body rest : bytes) (self : t) :
  _state self = text -> _dcs_esc self = false ->
  ESC ∉ body ->
  feed (dcs_sequence body ++ rest) self = feed rest self.
Proof.
  intros Hm Hflag Hesc. rewrite !feed_run. unfold dcs_sequence.
  cbn [app]. rewrite (run_swallow ESC _ self (set_state esc self)).
  2:{ rewrite step_eq, Hm. reflexivity. }
  set (inside := set_dcs_esc false (set_state dcs self)).
  rewrite (run_swallow x50 _ _ inside).
  2:{ rewrite step_eq. reflexivity. }
  rewrite <- !app_assoc.
  rewrite (run_app_swallowed body _ _ inside).
  2:{ apply run_inside_dcs; [reflexivity|reflexivity|exact Hesc]. }
  cbn [app ST].
  rewrite (run_swallow ESC _ _ (set_dcs_esc true inside)).
  2:{ rewrite step_eq. reflexivity. }
  rewrite (run_swallow x5c rest _ self); [reflexivity|].
  rewrite step_eq. cbn. f_equal.
  destruct self as [m fo fd]. cbn in *. subst. reflexivity.
Qed.

Lemma dcs_sequence_removed_witness :
  (ESC ∉ [x31; BEL; x32])
  /\ feed (dcs_sequence [x31; BEL; x32] ++ b_ "ok") init = feed (b_ "ok") init.
Proof.
  assert (ESC ∉ [x31; BEL; x32]) as H by (apply not_in_bytes; reflexivity).
  split; [exact H|].
  apply (dcs_sequence_removed [x31; BEL; x32] (b_ "ok") init);
    [reflexivity|reflexivity|exact H].
Defined.



(** X6. The byte that follows ESC is swallowed with it, whatever it
    is, and unless it is "[", "]" or "P" the instance is back in mode
    "text": a second ESC does not start a sequence of its own. *)
Theorem two_byte_escape_removed (b : byte) (rest : bytes) (self : t) :
  _state self = text ->
  b <> x5b -> b <> x5d -> b <> x50 ->
  feed ([ESC; b] ++ rest) self = feed rest self.
Proof.
  intros Hm H1 H2 H3. rewrite !feed_run. cbn [app].
  rewrite (run_swallow ESC _ self (set_state esc self)).
  2:{ rewrite step_eq, Hm. reflexivity. }
  rewrite (run_swallow b rest _ self); [reflexivity|].
  rewrite step_eq. cbn. rewrite !bool_decide_eq_false_2 by assumption.
  f_equal. destruct self as [m fo fd]. cbn in *. subst. reflexivity.
Qed.

Lemma two_byte_escape_removed_witness :
  feed ([ESC; ESC] ++ b_ "[31m") init = feed (b_ "[31m") init
  /\ fst (feed (b_ "[31m") init) = b_ "[31m".
Proof.
  split; [|reflexivity].
  apply (two_byte_escape_removed ESC (b_ "[31m") init);
    [reflexivity|discriminate|discriminate|discriminate].
Defined.

(** X7. Filtering twice is filtering once: what [feed] returns, from
    any state, goes through a fresh instance unchanged and leaves it
    fresh. *)
Theorem feed_idempotent (data : bytes) (self : t) :
  feed (fst (feed data self)) init = (fst (feed data self), init).
Proof.
  rewrite !feed_run. pose proof (run_no_esc data self) as H.
  induction (fst (run data self)) as [|b out IH]; [reflexivity|].
  apply not_elem_of_cons in H as [Hb Hout].
  rewrite run_cons, emitted_spec, step_text by (reflexivity || congruence).
  rewrite bool_decide_eq_true_2 by (split; [reflexivity|congruence]).
  rewrite (IH Hout). reflexivity.
Qed.

End StripperExtra.

(* ================================================================= *)
(** ** More properties of the relay *)

Module RelayExtra.
Import Relay RelayFacts Traces.
Local Open Scope Z_scope.
Local Open Scope py_scope.

#[local] Existing Instance framed_preorder.
#[local] Existing Instance same_returncode_preorder.

(** **** Logs that grow by events of one kind *)

Lemma grows_by_preorder P : PreOrder (grows_by P).
Proof.
  split.
  - intros s. repeat split. exists []. rewrite app_nil_r. done.
  - intros s1 s2 s3 (Hf & Ht & e1 & E1 & F1) (Hf' & Ht' & e2 & E2 & F2).
    repeat split; try congruence.
    exists (e1 ++ e2). rewrite E2, E1, app_assoc, forallb_app, F1.
    rewrite Hf in F2. rewrite F2. done.
Qed.
#[local] Existing Instance grows_by_preorder.

Lemma grows_by_same P s s' :
  stdin_fd s' = stdin_fd s -> tty s' = tty s -> log s' = log s ->
  grows_by P s s'.
Proof. intros. repeat split; try assumption. exists []. rewrite app_nil_r. done. Qed.

Lemma grows_by_emit P e :
  (forall sfd, P sfd e = true) -> keeps (grows_by P) (emit e).
Proof.
  intros H s. repeat split. exists [e]. split; [reflexivity|].
  cbn. rewrite H. reflexivity.
Qed.

Lemma grows_by_strip P data : keeps (grows_by P) (strip data).
Proof.
  intros s. unfold strip. destruct (stripper s) as [st|]; [|reflexivity].
  destruct (AnsiStripper.feed data st). apply grows_by_same; reflexivity.
Qed.

Lemma grows_by_poll P exited status : keeps (grows_by P) (poll exited status).
Proof.
  intros s. unfold poll. unfold_calls.
  destruct (returncode s); [reflexivity|]. destruct exited; [|reflexivity].
  apply grows_by_same; reflexivity.
Qed.

Lemma grows_by_set_returncode P rc : keeps (grows_by P) (modify (set_returncode rc)).
Proof. intros s. apply grows_by_same; reflexivity. Qed.

(** One step of a proof that a block keeps [grows_by P]; the events
    the block emits are checked by computation. *)
Ltac grows_step :=
  first
    [ assumption
    | match goal with H : forall _, keeps _ _ |- _ => apply H end
    | apply grows_by_strip | apply grows_by_poll | apply grows_by_set_returncode
    | apply grows_by_emit; solve [auto]
    | apply keeps_ret, _ | apply keeps_leave, _ | apply keeps_get, _
    | apply keeps_answer, _ | apply keeps_os_answer, _ | apply keeps_succeed, _
    | apply keeps_bind; [apply _| |intro]
    | apply keeps_try_except; [apply _| |intro]
    | apply keeps_end_while; [apply _|]
    | apply keeps_end_while
    | match goal with
      | |- keeps _ (if ?c then _ else _) => destruct c
      | |- keeps _ (match ?c with _ => _ end) => destruct c
      end ].

Ltac unfold_os :=
  unfold os_read, os_write, stdout_write, select, wait, read_master,
    _kill_process_group.

Section grows.
Variable timeout_s : option Z.
Variable su : setup.
Variable master : fd.
Variable P : option fd -> event -> bool.
Hypothesis P_select : forall sfd rlist, P sfd (ESelect rlist) = true.
Hypothesis P_output : forall sfd size r, P sfd (ERead master size r) = true.
Hypothesis P_stdout : forall sfd data, P sfd (EStdout data) = true.
Hypothesis P_input : forall f size r, P (Some f) (ERead f size r) = true.
Hypothesis P_forward : forall f data, P (Some f) (EWrite master data) = true.

Local Abbreviation R := (grows_by P).

Lemma grows_drain_loop reads : keeps R (drain_loop master reads).
Proof.
  induction reads as [|[r w] reads IH]; cbn [drain_loop]; unfold_os;
    repeat grows_step.
Qed.

Lemma grows_relay_output ready it : keeps R (relay_output su master ready it).
Proof. unfold relay_output. unfold_os. repeat grows_step. Qed.

Lemma grows_relay_input ready it : keeps R (relay_input master ready it).
Proof.
  intros s. unfold relay_input. unfold_calls.
  destruct (stdin_fd s) as [f|] eqn:Hfd; [|reflexivity].
  case_bool_decide; [|reflexivity].
  destruct (it_stdin_read it) as [[|b d]|n]; cbn;
    [| destruct (it_master_write it); cbn |];
    (repeat split; rewrite ?Hfd;
     eexists; split; [rewrite <- ?app_assoc; reflexivity|];
     cbn; rewrite ?P_input, ?P_forward; reflexivity).
Qed.

Lemma grows_drain_on_exit it : keeps R (drain_on_exit su master it).
Proof.
  pose proof (grows_drain_loop (it_drain it)).
  unfold drain_on_exit. repeat grows_step.
Qed.

(** A pass whose timeout check keeps [R] keeps it. *)
Lemma grows_loop_body it :
  keeps R (check_timeout timeout_s su it) ->
  keeps R (loop_body timeout_s su master it).
Proof.
  intros Hc.
  pose proof (fun r => grows_relay_output r it).
  pose proof (fun r => grows_relay_input r it).
  pose proof (grows_drain_on_exit it).
  unfold loop_body. unfold_os. repeat grows_step.
Qed.

Lemma grows_event_loop its :
  Forall (fun it => keeps R (check_timeout timeout_s su it)) its ->
  keeps R (event_loop timeout_s su master its).
Proof.
  induction 1 as [|it its Hit _ IH]; cbn [event_loop].
  - apply keeps_leave, _.
  - intros s. pose proof (grows_loop_body it Hit s) as Hb.
    destruct (loop_body timeout_s su master it s) as [[a|x] s']; cbn in *.
    + etrans; [exact Hb|apply IH].
    + exact Hb.
Qed.

(** The timeout check keeps [R] when it does not fire, or when [R]
    lets the signals through. *)
Lemma grows_check_timeout_quiet it :
  timed_out timeout_s su it = false -> keeps R (check_timeout timeout_s su it).
Proof. intros Ht. unfold check_timeout. rewrite Ht. apply keeps_ret, _. Qed.

Lemma grows_check_timeout it :
  (forall sfd e, signal_event e = true -> P sfd e = true) ->
  keeps R (check_timeout timeout_s su it).
Proof.
  intros Hs. unfold check_timeout. unfold_os. repeat grows_step.
Qed.

End grows.


(** **** The child's output, piped to stdout *)

Lemma stdout_of_app l1 l2 : stdout_of (l1 ++ l2) = stdout_of l1 ++ stdout_of l2.
Proof. unfold stdout_of. rewrite omap_app, concat_app. reflexivity. Qed.

Lemma master_output_app m l1 l2 :
  master_output m (l1 ++ l2) = master_output m l1 ++ master_output m l2.
Proof. unfold master_output. rewrite reads_from_app, concat_app. reflexivity. Qed.

Lemma filtered_nil st : filtered st [] = ([], st).
Proof. destruct st; reflexivity. Qed.

Lemma filtered_app st d1 d2 :
  filtered st (d1 ++ d2)
  = (fst (filtered st d1) ++ fst (filtered (snd (filtered st d1)) d2),
     snd (filtered (snd (filtered st d1)) d2)).
Proof.
  destruct st as [st|]; [|reflexivity].
  unfold filtered. cbn [fst snd].
  rewrite !StripperFacts.feed_run, StripperFacts.run_app. reflexivity.
Qed.

Lemma piped_preorder m f : PreOrder (piped m f).
Proof.
  split.
  - intros s. split; [reflexivity|]. intros _ _. exists [].
    rewrite app_nil_r, filtered_nil. done.
  - intros s1 s2 s3 (Hf & H1) (Hf' & H2). split; [congruence|].
    intros Hne Hs. destruct (H1 Hne Hs) as (e1 & E1 & F1).
    destruct (H2 Hne) as (e2 & E2 & F2).
    { unfold stdin_is in *. rewrite Hf. exact Hs. }
    exists (e1 ++ e2). rewrite E2, E1, app_assoc. split; [reflexivity|].
    rewrite stdout_of_app, master_output_app, filtered_app.
    rewrite <- F1. cbn [fst snd]. rewrite <- F2. reflexivity.
Qed.
#[local] Existing Instance piped_preorder.

#[local] Arguments AnsiStripper.feed : simpl never.

Section piped.
Variable timeout_s : option Z.
Variable su : setup.
Variables master f : fd.

Local Abbreviation R := (piped master f).

Lemma piped_same s s' :
  stdin_fd s' = stdin_fd s -> log s' = log s -> stripper s' = stripper s ->
  R s s'.
Proof.
  intros H1 H2 H3. split; [exact H1|]. intros _ _. exists [].
  rewrite app_nil_r, filtered_nil, H3. done.
Qed.

(** An event that is neither a write to stdout nor a read of the
    controller endpoint. *)
Lemma piped_emit e :
  (master <> f -> stdout_of [e] = [] /\ master_output master [e] = []) ->
  keeps R (emit e).
Proof.
  intros H s. split; [reflexivity|]. intros Hne _. exists [e].
  destruct (H Hne) as [-> ->]. rewrite filtered_nil. done.
Qed.

Lemma piped_poll exited status : keeps R (poll exited status).
Proof.
  intros s. unfold poll. unfold_calls.
  destruct (returncode s); [reflexivity|]. destruct exited; [|reflexivity].
  apply piped_same; reflexivity.
Qed.

Lemma piped_set_returncode rc : keeps R (modify (set_returncode rc)).
Proof. intros s. apply piped_same; reflexivity. Qed.

(** The state [s'] reached from [s] by a few calls, both written
    out: the log grew by the events between them. *)
Ltac piped_now :=
  split;
  [ reflexivity
  | intros ? _; eexists; split; [rewrite <- ?app_assoc; reflexivity|];
    unfold master_output; cbn;
    rewrite ?bool_decide_eq_true_2 by reflexivity; cbn;
    rewrite ?app_nil_r, ?filtered_nil;
    repeat match goal with
           | H : stripper _ = _ |- _ => rewrite H
           | H : AnsiStripper.feed _ _ = _ |- _ => cbn; rewrite H
           end;
    try reflexivity ].

(** One read of the controller endpoint with what is done to its
    data: stripped and, unless nothing is left, written to stdout. *)
Lemma piped_relay_output ready it : keeps R (relay_output su master ready it).
Proof.
  intros s. unfold relay_output, read_master. unfold_calls.
  case_bool_decide; [|reflexivity].
  destruct (it_master_read it) as [[|b d]|n]; cbn.
  - destruct (returncode s); cbn; [piped_now|].
    destruct (it_exited1 it); cbn; piped_now.
  - destruct (stripper s) as [st|] eqn:Est; cbn.
    + destruct (AnsiStripper.feed (b :: d) st) as [[|c o] st'] eqn:Ef; cbn;
        [|destruct (it_stdout it); cbn]; piped_now.
    + destruct (it_stdout it); cbn; piped_now.
  - destruct (n =? EIO); cbn; [|piped_now].
    destruct (returncode s); cbn; [piped_now|].
    destruct (it_exited1 it); cbn; piped_now.
Qed.

Lemma piped_drain_loop reads : keeps R (drain_loop master reads).
Proof.
  induction reads as [|[r w] reads IH]; intros s; cbn [drain_loop].
  - unfold_calls. cbn. piped_now.
  - unfold bind at 1. unfold os_read at 1. unfold_calls.
    destruct r as [[|b d]|n]; cbn; [piped_now| |piped_now].
    destruct (stripper s) as [st|] eqn:Est; cbn.
    + destruct (AnsiStripper.feed (b :: d) st) as [[|c o] st'] eqn:Ef; cbn.
      * etrans; [|apply IH]. piped_now.
      * destruct w; cbn; [piped_now|]. etrans; [|apply IH]. piped_now.
    + destruct w; cbn; [piped_now|]. etrans; [|apply IH]. piped_now.
Qed.

Lemma piped_relay_input ready it : keeps R (relay_input master ready it).
Proof.
  intros s. unfold relay_input. unfold_calls.
  destruct (stdin_fd s) as [f'|] eqn:Hfd; [|reflexivity].
  case_bool_decide; [|reflexivity].
  assert (forall r (s' : state) q,
            stdin_fd s' = stdin_fd s -> stripper s' = stripper s ->
            log s' = log s ++ ERead f' 1024 r :: q ->
            forallb (fun e => match e with EWrite _ _ => true | _ => false end) q = true ->
            R s s') as Hin.
  { intros r s' q E1 E2 E3 Eq. split; [exact E1|]. intros Hne Hs.
    rewrite (Hs f' Hfd) in *. eexists. split; [exact E3|].
    assert (stdout_of q = [] /\ master_output master q = []) as [Hq1 Hq2].
    { clear E3. induction q as [|e q IHq]; [done|].
      destruct e; try discriminate Eq. apply IHq, Eq. }
    change (ERead f 1024 r :: q) with ([ERead f 1024 r] ++ q).
    rewrite stdout_of_app, master_output_app, Hq1, Hq2, E2.
    unfold master_output, stdout_of. cbn.
    destruct r; cbn; rewrite ?bool_decide_eq_false_2 by congruence;
      rewrite filtered_nil; reflexivity. }
  destruct (it_stdin_read it) as [[|b d]|n]; cbn.
  - apply (Hin (Done []) _ []); reflexivity.
  - destruct (it_master_write it); cbn;
      apply (Hin (Done (b :: d)) _ [EWrite master (b :: d)]);
      cbn; rewrite <- ?app_assoc; reflexivity.
  - apply (Hin (Errno n) _ []); reflexivity.
Qed.

Ltac piped_step :=
  first
    [ assumption
    | match goal with H : forall _, keeps _ _ |- _ => apply H end
    | apply piped_poll | apply piped_set_returncode
    | apply piped_emit; intros _; split; reflexivity
    | apply keeps_ret, _ | apply keeps_leave, _ | apply keeps_get, _
    | apply keeps_answer, _ | apply keeps_os_answer, _ | apply keeps_succeed, _
    | apply keeps_bind; [apply _| |intro]
    | apply keeps_try_except; [apply _| |intro]
    | apply keeps_end_while; [apply _|]
    | apply keeps_end_while
    | match goal with
      | |- keeps _ (if ?c then _ else _) => destruct c
      | |- keeps _ (match ?c with _ => _ end) => destruct c
      end ].

Lemma piped_drain_on_exit it : keeps R (drain_on_exit su master it).
Proof.
  pose proof (piped_drain_loop (it_drain it)).
  unfold drain_on_exit. repeat piped_step.
Qed.

Lemma piped_check_timeout it : keeps R (check_timeout timeout_s su it).
Proof. unfold check_timeout. unfold_os. repeat piped_step. Qed.

Lemma piped_loop_body it : keeps R (loop_body timeout_s su master it).
Proof.
  pose proof (piped_check_timeout it).
  pose proof (fun r => piped_relay_output r it).
  pose proof (fun r => piped_relay_input r it).
  pose proof (piped_drain_on_exit it).
  unfold loop_body. unfold select. repeat piped_step.
Qed.

Lemma piped_event_loop its : keeps R (event_loop timeout_s su master its).
Proof.
  induction its as [|it its IH]; cbn [event_loop].
  - apply keeps_leave, _.
  - intros s. pose proof (piped_loop_body it s) as Hb.
    destruct (loop_body timeout_s su master it s) as [[a|x] s']; cbn in *.
    + etrans; [exact Hb|apply IH].
    + exact Hb.
Qed.

End piped.

(** **** From the loop to the run *)

Lemma forallb_weaken {A} (P Q : A -> bool) l :
  (forall a, P a = true -> Q a = true) ->
  forallb P l = true -> forallb Q l = true.
Proof.
  intros H. induction l as [|a l IH]; [done|]. cbn.
  intros [Ha Hl]%andb_true_iff. rewrite (H a Ha), (IH Hl). done.
Qed.

Lemma closes_app l1 l2 : closes (l1 ++ l2) = closes l1 ++ closes l2.
Proof. apply omap_app. Qed.

Lemma spawns_app l1 l2 : spawns (l1 ++ l2) = spawns l1 ++ spawns l2.
Proof. apply omap_app. Qed.

(** The loop's events close nothing, spawn nothing. *)
Lemma loop_events_keep m sfd l :
  forallb (loop_event m sfd) l = true -> closes l = [] /\ spawns l = [].
Proof.
  induction l as [|e l IH]; [done|]. cbn [forallb].
  intros [He Hl]%andb_true_iff. destruct e; try discriminate He; apply IH, Hl.
Qed.

Section traces.
Variable cmd : list string.
Variable cwd : option string.
Variable timeout_s : option Z.
Variable env : gmap string string.
Variable strip_ansi : bool.
Variable su : setup.

Local Abbreviation run := (run_with_pty cmd cwd timeout_s env strip_ansi su).
Local Abbreviation prepare := (before_try cmd cwd env strip_ansi su).
Local Abbreviation loop := (event_loop timeout_s su).

Lemma before_try_trace s m sl :
  su_openpty su = Ok (m, sl) -> su_popen su = None ->
  exists s1, prepare s = (Normal m, s1)
    /\ prepared cmd cwd env strip_ansi su m sl s s1.
Proof.
  unfold before_try, prepared, raw_attrs, setup_trace.
  destruct su as [op isatty fileno winsz popen tcget sraw sig start status cl tcset].
  cbn [su_openpty su_isatty su_fileno su_winsz su_popen su_tcgetattr su_setraw
       su_signal]. intros -> ->.
  destruct isatty, winsz, tcget, sraw, sig; unfold_calls; cbn;
    (eexists; split; [reflexivity|]); cbn; rewrite <- ?app_assoc;
    repeat split; reflexivity.
Qed.

Lemma before_try_fails s :
  match su_openpty su, su_popen su with
  | Err e, _ => prepare s = (Raise e, s)
  | Ok (m, sl), Some e =>
      prepare s = (Raise e, set_log (log s ++ failed_spawn_trace su m sl) s)
  | Ok _, None => True
  end.
Proof.
  unfold before_try, failed_spawn_trace.
  destruct su as [op isatty fileno winsz popen tcget sraw sig start status cl tcset].
  cbn [su_openpty su_isatty su_fileno su_winsz su_popen su_tcgetattr su_setraw
       su_signal].
  destruct op as [[m sl]|e]; [|reflexivity].
  destruct popen as [e|]; [|exact I].
  destruct isatty, winsz; unfold_calls; cbn; rewrite <- ?app_assoc; reflexivity.
Qed.

(** The [finally] block: its log, and what it leaves alone. *)
Lemma cleanup_log m s :
  log (snd (cleanup su m s)) = log s ++ cleanup_trace m s
  /\ (raw_mode s = false -> tty (snd (cleanup su m s)) = tty s).
Proof.
  unfold cleanup, cleanup_trace. unfold_calls.
  destruct (su_close su); cbn;
    destruct (raw_mode s), (stdin_fd s), (old_tty_attrs s); cbn;
    destruct (su_tcsetattr su); cbn; rewrite <- ?app_assoc; split; done.
Qed.

Lemma final_log m x s2 :
  log (snd (final su m x s2)) = log s2 ++ closing_trace m x s2
  /\ (raw_mode s2 = false -> tty (snd (final su m x s2)) = tty s2).
Proof.
  destruct x as [|v|e|c|]; cbn [final closing_trace snd];
    try apply cleanup_log.
  - destruct (cleanup_log m (set_log (log s2 ++ [EWait None]) s2)) as [-> Ht].
    cbn. rewrite <- app_assoc. split; [reflexivity|]. intros H. apply Ht, H.
  - rewrite app_nil_r. done.
Qed.

(** A run, from the allocation of the pair to the [finally] block. *)
Lemma run_trace its s m sl :
  su_openpty su = Ok (m, sl) -> su_popen su = None ->
  exists s1 x s2 mid,
    prepare s = (Normal m, s1)
    /\ prepared cmd cwd env strip_ansi su m sl s s1
    /\ loop m its s1 = (Leave x, s2)
    /\ log s2 = log s1 ++ mid
    /\ forallb (loop_event m (stdin_fd s1)) mid = true
    /\ framed m (su_fileno su) s1 s2
    /\ run its s = final su m x s2.
Proof.
  intros Ho Hp. destruct (before_try_trace s m sl Ho Hp) as (s1 & Ep & Hs1).
  pose proof (run_with_pty_spec cmd cwd timeout_s env strip_ansi su its s) as H.
  rewrite Ep in H. destruct H as (x & s2 & El & Er).
  assert (keeps (grows_by (loop_event m)) (loop m its)) as Hg.
  { apply grows_event_loop.
    - reflexivity.
    - intros. cbn. rewrite bool_decide_eq_true_2 by reflexivity. reflexivity.
    - reflexivity.
    - intros. cbn. rewrite (bool_decide_eq_true_2 (Some f = Some f)) by reflexivity.
      apply orb_true_r.
    - intros. cbn. rewrite bool_decide_eq_true_2 by reflexivity. reflexivity.
    - apply Forall_forall. intros it _. apply grows_check_timeout.
      intros sfd [] He; try discriminate He; reflexivity. }
  specialize (Hg s1). rewrite El in Hg. destruct Hg as (_ & _ & mid & Hm & Hf).
  pose proof (framed_event_loop timeout_s su m (su_fileno su) its s1) as Hfr.
  rewrite El in Hfr.
  exists s1, x, s2, mid. done.
Qed.

End traces.

(** **** The child's status during the loop *)

Section passes.
Variable timeout_s : option Z.
Variable su : setup.
Variable master : fd.



Lemma rc_poll_running status : keeps same_returncode (poll false status).
Proof. intros s. unfold poll. unfold_calls. destruct (returncode s); reflexivity. Qed.

(** While the child is running [p.returncode] stays as it is. *)
Lemma rc_loop_body_running it :
  running timeout_s su it ->
  keeps same_returncode (loop_body timeout_s su master it).
Proof.
  intros (Ht & H1 & H2 & _).
  unfold loop_body, check_timeout, relay_output, drain_on_exit.
  rewrite Ht, H1, H2. unfold read_master, os_read, stdout_write.
  repeat first [ apply rc_poll_running | apply rc_relay_input | apply rc_select
               | apply rc_drain_loop | rc_step ].
Qed.

Lemma event_loop_running its s :
  Forall (running timeout_s su) its -> returncode s = None ->
  exists s', event_loop timeout_s su master its s = (Pending, s').
Proof.
  intros Hall Hs.
  assert (keeps same_returncode (event_loop timeout_s su master its)) as Hk.
  { clear s Hs. induction Hall as [|it its Hit _ IH]; cbn [event_loop].
    - apply keeps_leave, _.
    - intros s. pose proof (rc_loop_body_running it Hit s) as Hb.
      destruct (loop_body timeout_s su master it s) as [[a|x] s']; cbn in *.
      + etrans; [exact Hb|apply IH].
      + exact Hb. }
  specialize (Hk s). unfold same_returncode in Hk.
  pose proof (event_loop_break timeout_s su master its s) as Hb.
  destruct (event_loop_exits timeout_s su master its s) as (x & Hx & Hc).
  destruct (event_loop timeout_s su master its s) as [c s'].
  cbn in Hx, Hk. subst c. exists s'.
  destruct Hc as [->|[->|[[-> Hex]|(e & it & -> & Hin & Hsrc)]]].
  - specialize (Hb s' (or_introl Hs) eq_refl). congruence.
  - reflexivity.
  - apply Exists_exists in Hex as (it & Hin & Ht).
    rewrite Forall_forall in Hall. destruct (Hall it Hin) as (Ht' & _). congruence.
  - rewrite Forall_forall in Hall. destruct (Hall it Hin) as (_ & _ & _ & Hno).
    destruct (Hno e Hsrc).
Qed.



End passes.

(** **** Properties of a run *)

Section runs.
Variable cmd : list string.
Variable cwd : option string.
Variable timeout_s : option Z.
Variable env : gmap string string.
Variable strip_ansi : bool.
Variable su : setup.

Local Abbreviation run := (run_with_pty cmd cwd timeout_s env strip_ansi su).

Lemma setup_trace_shows m sl :
  let l := setup_trace cmd cwd env su m sl in
  stdout_of l = [] /\ (forall m', master_output m' l = [])
  /\ closes l = [sl] /\ spawns l = [(cmd, cwd, env)]
  /\ forallb (fun e => negb (signal_event e)) l = true
  /\ (raw_attrs su = None -> forallb (output_only m) l = true).
Proof.
  unfold setup_trace, raw_attrs.
  destruct (su_isatty su), (su_tcgetattr su), (su_setraw su); cbn; done.
Qed.

Lemma closing_trace_shows m x s :
  let l := closing_trace m x s in
  stdout_of l = [] /\ (forall m', master_output m' l = [])
  /\ (x <> XPending -> closes l = [m]) /\ spawns l = []
  /\ forallb (fun e => negb (signal_event e)) l = true
  /\ (raw_mode s = false -> forallb (output_only m) l = true).
Proof.
  unfold closing_trace, cleanup_trace.
  destruct x, (raw_mode s), (stdin_fd s), (old_tty_attrs s); cbn; done.
Qed.

Lemma failed_spawn_trace_shows m sl :
  let l := failed_spawn_trace su m sl in
  stdout_of l = [] /\ (forall m', master_output m' l = [])
  /\ closes l = [] /\ spawns l = []
  /\ forallb (fun e => negb (signal_event e)) l = true
  /\ forallb (output_only m) l = true.
Proof. unfold failed_spawn_trace. destruct (su_isatty su); cbn; done. Qed.

(** What [run_with_pty] does to the log, whichever way it ends. *)
Lemma run_cases its s :
  (exists e, su_openpty su = Err e /\ run its s = (Raise e, s))
  \/ (exists m sl e, su_openpty su = Ok (m, sl) /\ su_popen su = Some e
        /\ run its s = (Raise e, set_log (log s ++ failed_spawn_trace su m sl) s))
  \/ (exists m sl s1 x s2 mid,
        su_openpty su = Ok (m, sl) /\ su_popen su = None
        /\ prepared cmd cwd env strip_ansi su m sl s s1
        /\ event_loop timeout_s su m its s1 = (Leave x, s2)
        /\ log s2 = log s1 ++ mid
        /\ forallb (loop_event m (stdin_fd s1)) mid = true
        /\ framed m (su_fileno su) s1 s2
        /\ run its s = final su m x s2).
Proof.
  pose proof (before_try_fails cmd cwd env strip_ansi su s) as Hf.
  destruct (su_openpty su) as [[m sl]|e] eqn:Ho.
  - destruct (su_popen su) as [e|] eqn:Hp.
    + right; left. exists m, sl, e. rewrite run_with_pty_unfold, Hf. done.
    + right; right.
      destruct (run_trace cmd cwd timeout_s env strip_ansi su its s m sl Ho Hp)
        as (s1 & x & s2 & mid & _ & H).
      exists m, sl, s1, x, s2, mid. done.
  - left. exists e. rewrite run_with_pty_unfold, Hf. done.
Qed.

End runs.

(** **** What a run shows *)

(** X8. Whatever the chunks in which the child's output arrives, what a
    run writes to stdout is the child's output, everything read from
    the controller endpoint in order, through one stripper started in
    its initial state, or unchanged when escape sequences are kept. *)
Theorem stdout_is_filtered_output cmd cwd timeout_s env strip_ansi su its s m sl c s' :
  su_openpty su = Ok (m, sl) -> m <> su_fileno su ->
  run_with_pty cmd cwd timeout_s env strip_ansi su its s = (c, s') ->
  exists ext, log s' = log s ++ ext
    /\ stdout_of ext
       = fst (filtered (if strip_ansi then Some AnsiStripper.init else None)
                       (master_output m ext)).
Proof.
  intros Ho Hne Hr.
  destruct (run_cases cmd cwd timeout_s env strip_ansi su its s)
    as [(e & Ho' & Hr')|[(m' & sl' & e & Ho' & Hp & Hr')
       |(m' & sl' & s1 & x & s2 & mid & Ho' & Hp & Hs1 & El & Hm & Hf & Hfr & Hr')]];
    rewrite Ho in Ho'; simplify_eq.
  - rewrite Hr in Hr'. injection Hr' as -> ->. eexists. split; [reflexivity|].
    destruct (failed_spawn_trace_shows su m' sl') as (-> & -> & _).
    rewrite filtered_nil. reflexivity.
  - rewrite Hr in Hr'. destruct Hs1 as (Hl1 & Hst & _ & Hraw).
    assert (stdin_is (su_fileno su) s1) as Hin.
    { intros f' Hf'. destruct (raw_attrs su); destruct Hraw as (_ & Hfd & _);
        congruence. }
    pose proof (piped_event_loop timeout_s su m' (su_fileno su) its s1) as Hp'.
    rewrite El in Hp'. destruct Hp' as (_ & Hp'). cbn [snd] in Hp'.
    destruct (Hp' Hne Hin) as (ext & Hext & Hpipe).
    destruct (final_log su m' x s2) as (Hlog & _). rewrite <- Hr' in Hlog.
    cbn [snd] in Hlog.
    exists (setup_trace cmd cwd env su m' sl' ++ ext ++ closing_trace m' x s2).
    split. { rewrite Hlog, Hext, Hl1, <- !app_assoc. reflexivity. }
    destruct (setup_trace_shows cmd cwd env su m' sl') as (E1 & E2 & _).
    destruct (closing_trace_shows m' x s2) as (E3 & E4 & _).
    rewrite !stdout_of_app, !master_output_app, E1, E2, E3, E4, app_nil_r.
    cbn [app]. rewrite app_nil_r, <- Hst, <- Hpipe. reflexivity.
Qed.

Lemma stdout_is_filtered_output_witness :
  exists ext,
    log (snd (run_with_pty sample_cmd None None ∅ true (sample_setup 0)
                [chat; hangup 102] (initial [0])))
    = log (initial [0]) ++ ext
    /\ stdout_of ext
       = fst (filtered (Some AnsiStripper.init) (master_output 3 ext)).
Proof.
  apply (stdout_is_filtered_output sample_cmd None None ∅ true (sample_setup 0)
           [chat; hangup 102] (initial [0]) 3 4
           (fst (run_with_pty sample_cmd None None ∅ true (sample_setup 0)
                   [chat; hangup 102] (initial [0]))));
    [reflexivity|discriminate|apply surjective_pairing].
Defined.

(** X9. A run that has spawned the child and has ended, by a return or
    by an exception, has closed each endpoint of the pair once: the
    child's endpoint first, the controller endpoint last. *)
Theorem endpoints_closed_once cmd cwd timeout_s env strip_ansi su its s m sl c s' :
  su_openpty su = Ok (m, sl) -> su_popen su = None ->
  run_with_pty cmd cwd timeout_s env strip_ansi su its s = (c, s') ->
  c <> Pending ->
  exists ext, log s' = log s ++ ext /\ closes ext = [sl; m].
Proof.
  intros Ho Hp Hr Hc.
  destruct (run_cases cmd cwd timeout_s env strip_ansi su its s)
    as [(e & Ho' & Hr')|[(m' & sl' & e & Ho' & Hp' & Hr')
       |(m' & sl' & s1 & x & s2 & mid & Ho' & Hp' & Hs1 & El & Hm & Hf & Hfr & Hr')]];
    rewrite Ho in Ho'; simplify_eq.
  rewrite Hr in Hr'. destruct Hs1 as (Hl1 & _).
  destruct (final_log su m' x s2) as (Hlog & _). rewrite <- Hr' in Hlog.
  cbn [snd] in Hlog.
  exists (setup_trace cmd cwd env su m' sl' ++ mid ++ closing_trace m' x s2).
  split. { rewrite Hlog, Hm, Hl1, <- !app_assoc. reflexivity. }
  destruct (setup_trace_shows cmd cwd env su m' sl') as (_ & _ & E1 & _).
  destruct (closing_trace_shows m' x s2) as (_ & _ & E2 & _).
  destruct (loop_events_keep _ _ _ Hf) as (E3 & _).
  rewrite !closes_app, E1, E3, E2; [reflexivity|].
  intros ->. apply Hc. injection Hr' as -> _. reflexivity.
Qed.

Lemma endpoints_closed_once_witness :
  exists ext,
    log (snd (run_with_pty sample_cmd None None ∅ true (sample_setup 0)
                [chat; broken 4] (initial [0])))
    = log (initial [0]) ++ ext
    /\ closes ext = [4; 3].
Proof.
  apply (endpoints_closed_once sample_cmd None None ∅ true (sample_setup 0)
           [chat; broken 4] (initial [0]) 3 4
           (fst (run_with_pty sample_cmd None None ∅ true (sample_setup 0)
                   [chat; broken 4] (initial [0]))));
    [reflexivity|reflexivity|apply surjective_pairing|discriminate].
Defined.

(** X10. When raw mode is not entered, because stdin is not a terminal or
    because taking the snapshot or switching fails, a run leaves the
    caller's side alone: it reads no descriptor but the controller
    endpoint, writes to none, and sets no terminal attributes. *)
Theorem output_only_without_raw_mode cmd cwd timeout_s env strip_ansi su its s m sl c s' :
  su_openpty su = Ok (m, sl) -> raw_attrs su = None ->
  run_with_pty cmd cwd timeout_s env strip_ansi su its s = (c, s') ->
  tty s' = tty s
  /\ exists ext, log s' = log s ++ ext /\ forallb (output_only m) ext = true.
Proof.
  intros Ho Hraw Hr.
  destruct (run_cases cmd cwd timeout_s env strip_ansi su its s)
    as [(e & Ho' & Hr')|[(m' & sl' & e & Ho' & Hp & Hr')
       |(m' & sl' & s1 & x & s2 & mid & Ho' & Hp & Hs1 & El & Hm & Hf & Hfr & Hr')]];
    rewrite Ho in Ho'; simplify_eq.
  - rewrite Hr in Hr'. injection Hr' as -> ->. split; [reflexivity|].
    eexists. split; [reflexivity|]. apply failed_spawn_trace_shows.
  - rewrite Hr in Hr'. destruct Hs1 as (Hl1 & _ & _ & Hs1). rewrite Hraw in Hs1.
    destruct Hs1 as (Ht1 & Hfd1 & Hr1).
    destruct Hfr as (Ht2 & _ & Hr2 & _).
    destruct (final_log su m' x s2) as (Hlog & Htty). rewrite <- Hr' in Hlog, Htty.
    cbn [snd] in Hlog, Htty.
    split. { rewrite Htty by congruence. congruence. }
    exists (setup_trace cmd cwd env su m' sl' ++ mid ++ closing_trace m' x s2).
    split. { rewrite Hlog, Hm, Hl1, <- !app_assoc. reflexivity. }
    destruct (setup_trace_shows cmd cwd env su m' sl') as (_ & _ & _ & _ & _ & E1).
    destruct (closing_trace_shows m' x s2) as (_ & _ & _ & _ & _ & E2).
    rewrite !forallb_app, (E1 Hraw), E2 by congruence.
    rewrite Hfd1 in Hf.
    assert (forallb (output_only m') mid = true) as ->; [|done].
    revert Hf. apply forallb_weaken.
    intros []; cbn; rewrite ?orb_false_r, ?andb_false_r; done.
Qed.

Lemma output_only_without_raw_mode_witness :
  let su := Setup (Ok (3, 4)) false 0 None None None (Ok [1]) None 100 0 None None in
  let r := run_with_pty sample_cmd None None ∅ true su [chat; hangup 102] (initial [0]) in
  tty (snd r) = tty (initial [0])
  /\ exists ext, log (snd r) = log (initial [0]) ++ ext
       /\ forallb (output_only 3) ext = true.
Proof.
  intros su r.
  apply (output_only_without_raw_mode sample_cmd None None ∅ true su
           [chat; hangup 102] (initial [0]) 3 4 (fst r));
    [reflexivity|reflexivity|apply surjective_pairing].
Defined.

(** X11. The child is signalled on the timeout path only: in a run none
    of whose passes finds the timeout expired, whichever way it
    ends, no signal is sent to the child's group and no bounded wait
    is made. *)
Theorem no_signal_without_timeout cmd cwd timeout_s env strip_ansi su its s c s' :
  Forall (fun it => timed_out timeout_s su it = false) its ->
  run_with_pty cmd cwd timeout_s env strip_ansi su its s = (c, s') ->
  exists ext, log s' = log s ++ ext
    /\ forallb (fun e => negb (signal_event e)) ext = true.
Proof.
  intros Hall Hr.
  destruct (run_cases cmd cwd timeout_s env strip_ansi su its s)
    as [(e & Ho' & Hr')|[(m' & sl' & e & Ho' & Hp & Hr')
       |(m' & sl' & s1 & x & s2 & mid & Ho' & Hp & Hs1 & El & Hm & Hf & Hfr & Hr')]].
  - rewrite Hr in Hr'. injection Hr' as -> ->. exists []. rewrite app_nil_r. done.
  - rewrite Hr in Hr'. injection Hr' as -> ->. eexists. split; [reflexivity|].
    apply failed_spawn_trace_shows.
  - rewrite Hr in Hr'. destruct Hs1 as (Hl1 & _).
    destruct (final_log su m' x s2) as (Hlog & _). rewrite <- Hr' in Hlog.
    cbn [snd] in Hlog.
    assert (keeps (grows_by (fun _ e => negb (signal_event e)))
              (event_loop timeout_s su m' its)) as Hg.
    { apply grows_event_loop; try reflexivity.
      eapply Forall_impl; [exact Hall|]. intros it Ht.
      apply grows_check_timeout_quiet, Ht. }
    specialize (Hg s1). rewrite El in Hg. destruct Hg as (_ & _ & mid' & Hm' & Hq).
    cbn [snd] in Hm'.
    exists (setup_trace cmd cwd env su m' sl' ++ mid' ++ closing_trace m' x s2).
    split. { rewrite Hlog, Hm', Hl1, <- !app_assoc. reflexivity. }
    destruct (setup_trace_shows cmd cwd env su m' sl') as (_ & _ & _ & _ & E1 & _).
    destruct (closing_trace_shows m' x s2) as (_ & _ & _ & _ & E2 & _).
    rewrite !forallb_app, E1, E2, Hq. done.
Qed.

Lemma no_signal_without_timeout_witness :
  exists ext,
    log (snd (run_with_pty sample_cmd None None ∅ true (sample_setup 0)
                [chat; broken 4] (initial [0])))
    = log (initial [0]) ++ ext
    /\ forallb (fun e => negb (signal_event e)) ext = true.
Proof.
  apply (no_signal_without_timeout sample_cmd None None ∅ true (sample_setup 0)
           [chat; broken 4] (initial [0])
           (fst (run_with_pty sample_cmd None None ∅ true (sample_setup 0)
                   [chat; broken 4] (initial [0]))));
    [repeat constructor|apply surjective_pairing].
Defined.



(** X13. A spawn that fails is not handled: the exception of
    [subprocess.Popen] leaves [run_with_pty] as it is, before the
    [try], so neither endpoint of the pair is closed and the terminal
    is not touched. *)
Theorem spawn_failure_propagates cmd cwd timeout_s env strip_ansi su its s m sl e :
  su_openpty su = Ok (m, sl) -> su_popen su = Some e ->
  exists s', run_with_pty cmd cwd timeout_s env strip_ansi su its s = (Raise e, s')
    /\ tty s' = tty s
    /\ exists ext, log s' = log s ++ ext /\ closes ext = []
         /\ forallb (output_only m) ext = true.
Proof.
  intros Ho Hp.
  pose proof (before_try_fails cmd cwd env strip_ansi su s) as Hf.
  rewrite Ho, Hp in Hf. rewrite run_with_pty_unfold, Hf.
  eexists. split; [reflexivity|]. split; [reflexivity|].
  eexists. split; [reflexivity|].
  destruct (failed_spawn_trace_shows su m sl) as (_ & _ & E1 & _ & _ & E2). done.
Qed.

Lemma spawn_failure_propagates_witness :
  let su := Setup (Ok (3, 4)) true 0 None (Some (OSError 2)) None (Ok [1]) None
                  100 0 None None in
  exists s', run_with_pty sample_cmd None None ∅ true su [chat] (initial [0])
             = (Raise (OSError 2), s')
    /\ tty s' = tty (initial [0])
    /\ exists ext, log s' = log (initial [0]) ++ ext /\ closes ext = []
         /\ forallb (output_only 3) ext = true.
Proof.
  intros su.
  apply (spawn_failure_propagates sample_cmd None None ∅ true su [chat]
           (initial [0]) 3 4 (OSError 2)); reflexivity.
Defined.

(** X14. Without a timeout the relay goes on as long as the child does:
    after any number of passes in which the child is running and no
    call fails, the loop is still running. *)
Theorem runs_while_child_runs cmd cwd timeout_s env strip_ansi su its s m sl :
  su_openpty su = Ok (m, sl) -> su_popen su = None ->
  Forall (running timeout_s su) its ->
  fst (run_with_pty cmd cwd timeout_s env strip_ansi su its s) = Pending.
Proof.
  intros Ho Hp Hall.
  destruct (run_trace cmd cwd timeout_s env strip_ansi su its s m sl Ho Hp)
    as (s1 & x & s2 & mid & _ & (_ & _ & Hrc & _) & El & _ & _ & _ & ->).
  destruct (event_loop_running timeout_s su m its s1 Hall Hrc) as (s2' & El').
  rewrite El in El'. injection El' as -> _. reflexivity.
Qed.


Lemma runs_while_child_runs_witness :
  fst (run_with_pty sample_cmd None None ∅ true (sample_setup 0)
         [chat; chat] (initial [0])) = Pending.
Proof.
  apply (runs_while_child_runs sample_cmd None None ∅ true (sample_setup 0)
           [chat; chat] (initial [0]) 3 4); [reflexivity|reflexivity|].
  repeat constructor;
    intros e [H|[(n & H & _)|[H|(_ & r & H)]]]; try discriminate H;
    inversion H.
Defined.


(** **** [main] *)

Lemma setdefault_TERM (environ : gmap string string) :
  let env := setdefault "TERM" (default "xterm-256color"%string (environ !! "TERM"%string))
               environ in
  env !! "TERM"%string = Some (default "xterm-256color"%string (environ !! "TERM"%string))
  /\ forall k, k <> "TERM"%string -> env !! k = environ !! k.
Proof.
  unfold setdefault. destruct (environ !! "TERM"%string) as [t|] eqn:E; cbn.
  - rewrite E. done.
  - split; [apply lookup_insert_eq|]. intros k Hk. apply lookup_insert_ne. congruence.
Qed.

(** X16. [main] spawns at most one child, and it is the program of
    [--claude-bin] with the arguments left once one leading "--" is
    dropped, in the directory of [--cwd], in the caller's environment
    but for TERM, which is xterm-256color when the caller has none. *)
Theorem main_spawns_claude args environ su its s c s' :
  main args environ su its s = (c, s') ->
  exists ext, log s' = log s ++ ext
    /\ (spawns ext = []
        \/ exists env,
             spawns ext = [(args_claude_bin args :: target_args (args_claude_args args),
                            args_cwd args, env)]
             /\ env !! "TERM"%string
                = Some (default "xterm-256color"%string (environ !! "TERM"%string))
             /\ forall k, k <> "TERM"%string -> env !! k = environ !! k).
Proof.
  unfold main. cbn zeta.
  change (match args_claude_args args with
          | [] => args_claude_args args
          | a0 :: rest => if bool_decide (a0 = "--"%string) then rest
                          else args_claude_args args
          end) with (target_args (args_claude_args args)).
  destruct (target_args (args_claude_args args)) as [|a1 rest] eqn:Et; cbn [truthy negb].
  { intros [= <- <-]. exists [EStderr "No claude args provided. Example: -- -p 'hello'"].
    split; [reflexivity|]. left. reflexivity. }
  unfold bind at 1, ret. intros Hr.
  set (env := setdefault _ _ _) in Hr.
  destruct (run_cases ([args_claude_bin args] ++ a1 :: rest) (args_cwd args)
              (args_timeout args) env (args_strip_ansi args) su its s)
    as [(e & Ho' & Hr')|[(m' & sl' & e & Ho' & Hp & Hr')
       |(m' & sl' & s1 & x & s2 & mid & Ho' & Hp & Hs1 & El & Hm & Hf & Hfr & Hr')]];
    rewrite Hr in Hr'.
  - injection Hr' as -> ->. exists []. rewrite app_nil_r. auto.
  - injection Hr' as -> ->. eexists. split; [reflexivity|]. left.
    apply failed_spawn_trace_shows.
  - destruct Hs1 as (Hl1 & _).
    destruct (final_log su m' x s2) as (Hlog & _). rewrite <- Hr' in Hlog.
    cbn [snd] in Hlog.
    eexists. split. { rewrite Hlog, Hm, Hl1, <- !app_assoc. reflexivity. }
    right. exists env. split; [|apply setdefault_TERM].
    destruct (setup_trace_shows ([args_claude_bin args] ++ a1 :: rest) (args_cwd args)
                env su m' sl') as (_ & _ & _ & E1 & _).
    destruct (closing_trace_shows m' x s2) as (_ & _ & _ & E2 & _).
    destruct (loop_events_keep _ _ _ Hf) as (_ & E3).
    rewrite !spawns_app, E1, E2, E3. reflexivity.
Qed.

Lemma main_spawns_claude_witness :
  let r := main (sample_args ["--"; "-p"; "hello"]%string) ∅ (sample_setup 0)
             [chat; hangup 102] (initial [0]) in
  exists ext, log (snd r) = log (initial [0]) ++ ext
    /\ (spawns ext = []
        \/ exists env,
             spawns ext = [("claude" :: target_args ["--"; "-p"; "hello"], None, env)]%string
             /\ env !! "TERM"%string
                = Some (default "xterm-256color"%string ((∅ : gmap string string) !! "TERM"%string))
             /\ forall k, k <> "TERM"%string -> env !! k = (∅ : gmap string string) !! k).
Proof.
  intros r.
  apply (main_spawns_claude (sample_args ["--"; "-p"; "hello"]%string) ∅
           (sample_setup 0) [chat; hangup 102] (initial [0]) (fst r)).
  apply surjective_pairing.
Defined.

End RelayExtra.

(* ================================================================= *)
(** ** Properties of the window size *)

Module WinszFacts.
Import Winsz.
Local Open Scope Z_scope.

Lemma byte_val_range b : 0 <= byte_val b <= 255.
Proof.
  unfold byte_val. pose proof (Byte.to_N_bounded b). lia.
Qed.

Lemma byte_of_val b : byte_of (byte_val b) = Some b.
Proof. unfold byte_of, byte_val. rewrite N2Z.id. apply Byte.of_to_N. Qed.

Lemma byte_of_Some n : 0 <= n <= 255 -> exists b, byte_of n = Some b /\ byte_val b = n.
Proof.
  intros Hn. unfold byte_of, byte_val.
  destruct (Byte.of_N (Z.to_N n)) as [b|] eqn:E.
  - exists b. split; [reflexivity|]. apply Byte.to_of_N in E. rewrite E. lia.
  - apply Byte.of_N_None_iff in E. lia.
Qed.

Lemma pack_unpack_H be b0 b1 : pack_H be (unpack_H be b0 b1) = Some [b0; b1].
Proof.
  pose proof (byte_val_range b0). pose proof (byte_val_range b1).
  unfold pack_H, unpack_H. destruct be.
  - assert ((256 * byte_val b0 + byte_val b1) mod 256 = byte_val b1) as ->
      by (Z.div_mod_to_equations; lia).
    assert ((256 * byte_val b0 + byte_val b1) / 256 = byte_val b0) as ->
      by (Z.div_mod_to_equations; lia).
    rewrite !byte_of_val. cbn.
    destruct (0 <=? _) eqn:E1; [|lia]. destruct (_ <=? 65535) eqn:E2; [|lia].
    reflexivity.
  - assert ((byte_val b0 + 256 * byte_val b1) mod 256 = byte_val b0) as ->
      by (Z.div_mod_to_equations; lia).
    assert ((byte_val b0 + 256 * byte_val b1) / 256 = byte_val b1) as ->
      by (Z.div_mod_to_equations; lia).
    rewrite !byte_of_val. cbn.
    destruct (0 <=? _) eqn:E1; [|lia]. destruct (_ <=? 65535) eqn:E2; [|lia].
    reflexivity.
Qed.

Lemma pack_H_Some be n :
  0 <= n <= 65535 ->
  exists b0 b1, pack_H be n = Some [b0; b1] /\ unpack_H be b0 b1 = n.
Proof.
  intros Hn. unfold pack_H, unpack_H.
  destruct (0 <=? n) eqn:E1; [|lia]. destruct (n <=? 65535) eqn:E2; [|lia]. cbn.
  pose proof (Z.mod_pos_bound n 256 ltac:(lia)).
  pose proof (Z.div_mod n 256 ltac:(lia)).
  assert (0 <= n / 256 <= 255) as Hd.
  { split; [apply Z.div_pos; lia|]. apply Z.lt_succ_r, Z.div_lt_upper_bound; lia. }
  destruct (byte_of_Some (n mod 256)) as (lo & -> & Hlo); [lia|].
  destruct (byte_of_Some (n / 256)) as (hi & -> & Hhi); [lia|]. cbn.
  destruct be; eexists _, _; (split; [reflexivity|]); rewrite Hlo, Hhi; lia.
Qed.

Lemma pack_H_None be n : ~ (0 <= n <= 65535) -> pack_H be n = None.
Proof.
  intros Hn. unfold pack_H.
  destruct (0 <=? n) eqn:E1; [|reflexivity].
  destruct (n <=? 65535) eqn:E2; [lia|reflexivity].
Qed.

(** X17. The window size is copied unchanged: for the 8 bytes the
    terminal's [TIOCGWINSZ] request returns, [_set_winsz] hands to
    the [TIOCSWINSZ] request those same bytes, whatever the byte
    order; packing what was unpacked never fails. *)
Theorem winsz_copied_unchanged big_endian (data : bytes) :
  length data = 8%nat ->
  _get_winsz big_endian data ≫= _set_winsz big_endian = Some data.
Proof.
  intros Hlen.
  do 8 (destruct data as [|? data]; [discriminate Hlen|]).
  destruct data; [|discriminate Hlen].
  unfold _get_winsz, _set_winsz, struct_unpack, struct_pack. cbn [mbind option_bind].
  rewrite !pack_unpack_H. reflexivity.
Qed.

Lemma winsz_copied_unchanged_witness :
  _get_winsz false [x18; x00; x50; x00; x00; x00; x00; x00]
    ≫= _set_winsz false
  = Some [x18; x00; x50; x00; x00; x00; x00; x00].
Proof.
  apply (winsz_copied_unchanged false [x18; x00; x50; x00; x00; x00; x00; x00]).
  reflexivity.
Defined.

(** X18. [_set_winsz] raises exactly when a field is not an unsigned
    16-bit integer; otherwise the buffer it builds is of 8 bytes and
    [_get_winsz] reads the four fields back from it. *)
Theorem set_winsz_range big_endian (w : winsz) :
  (in_range w ->
   exists data, _set_winsz big_endian w = Some data /\ length data = 8%nat
     /\ _get_winsz big_endian data = Some w)
  /\ (~ in_range w -> _set_winsz big_endian w = None).
Proof.
  destruct w as [[[rows cols] xpix] ypix]. unfold in_range, _set_winsz, struct_pack.
  split.
  - intros (Hr & Hc & Hx & Hy).
    destruct (pack_H_Some big_endian rows Hr) as (r0 & r1 & -> & Er).
    destruct (pack_H_Some big_endian cols Hc) as (c0 & c1 & -> & Ec).
    destruct (pack_H_Some big_endian xpix Hx) as (x0 & x1 & -> & Ex).
    destruct (pack_H_Some big_endian ypix Hy) as (y0 & y1 & -> & Ey).
    cbn. eexists. split; [reflexivity|]. split; [reflexivity|].
    unfold _get_winsz. cbn. rewrite Er, Ec, Ex, Ey. reflexivity.
  - intros Hn.
    destruct (decide (0 <= rows <= 65535)) as [Hr|Hr];
      [|rewrite (pack_H_None _ _ Hr); reflexivity].
    destruct (pack_H_Some big_endian rows Hr) as (r0 & r1 & -> & _). cbn.
    destruct (decide (0 <= cols <= 65535)) as [Hc|Hc];
      [|rewrite (pack_H_None _ _ Hc); reflexivity].
    destruct (pack_H_Some big_endian cols Hc) as (c0 & c1 & -> & _). cbn.
    destruct (decide (0 <= xpix <= 65535)) as [Hx|Hx];
      [|rewrite (pack_H_None _ _ Hx); reflexivity].
    destruct (pack_H_Some big_endian xpix Hx) as (x0 & x1 & -> & _). cbn.
    destruct (decide (0 <= ypix <= 65535)) as [Hy|Hy];
      [|rewrite (pack_H_None _ _ Hy); reflexivity].
    destruct Hn. done.
Qed.

End WinszFacts.
